(** * moddepth_analysis: the batch driver of examples/moddepth_analysis.py

    A shallow embedding of the script: the output filename resolver
    [_check_filename] with the two [os.path] functions it calls, and the
    nested subject / condition loop with its [try]/[except] handlers.
    The spectral estimator, the [.mat] reader and the random number
    generator are external to the script and enter as an environment of
    oracles. *)

From Stdlib Require Import ZArith String Ascii List Lia DecimalString DecimalNat.
From Stdlib Require Import Permutation.
From stdpp Require Import base gmap strings list.

(** ** Python strings *)

Module PyStr.

(** [str(n)] for a non-negative [int] and for any [int]. *)
Definition str_nat (n : nat) : string :=
  NilEmpty.string_of_uint (Nat.to_uint n).

Definition str_Z (z : Z) : string :=
  NilEmpty.string_of_int (Z.to_int z).

(** [s.rfind(c)]: the highest index of [c] in [s], [-1] when absent. *)
Fixpoint rfind (c : ascii) (s : string) : Z :=
  match s with
  | EmptyString => (-1)%Z
  | String a t =>
      let r := rfind c t in
      if (0 <=? r)%Z then (r + 1)%Z
      else if Ascii.eqb a c then 0%Z else (-1)%Z
  end.

(** [s[:n]] and [s[n:]] for [0 <= n]. *)
Fixpoint str_take (n : nat) (s : string) : string :=
  match n, s with
  | S k, String a t => String a (str_take k t)
  | _, _ => EmptyString
  end.

Fixpoint str_drop (n : nat) (s : string) : string :=
  match n, s with
  | S k, String _ t => str_drop k t
  | _, _ => s
  end.

Definition startswith (c : ascii) (s : string) : bool :=
  match s with
  | String a _ => Ascii.eqb a c
  | EmptyString => false
  end.

Fixpoint endswith (c : ascii) (s : string) : bool :=
  match s with
  | EmptyString => false
  | String a t =>
      match t with
      | EmptyString => Ascii.eqb a c
      | String _ _ => endswith c t
      end
  end.

(** [l[0:stop]] on a list, with Python's treatment of a negative or
    too large [stop]. *)
Definition slice_to {A} (stop : Z) (l : list A) : list A :=
  let len := Z.of_nat (length l) in
  let stop' := if (stop <? 0)%Z then Z.max 0 (len + stop) else Z.min stop len in
  firstn (Z.to_nat stop') l.

End PyStr.

(** ** posixpath *)

Module PosixPath.
Import PyStr.

(** [os.path.join(a, b)]. *)
Definition join (a b : string) : string :=
  if startswith "/" b then b
  else if String.eqb a "" || endswith "/" a then a +:+ b
  else a +:+ "/" +:+ b.

(** The scan of [genericpath._splitext] over the leading dots of the
    last component: [n] positions remain before [dotIndex]; the answer
    is [true] when every one of them holds a dot. *)
Fixpoint leading_dots_only (p : string) (filenameIndex n : nat) : bool :=
  match n with
  | 0 => true
  | S k =>
      match String.get filenameIndex p with
      | Some a =>
          if Ascii.eqb a "." then leading_dots_only p (S filenameIndex) k
          else false
      | None => false
      end
  end.

(** [os.path.splitext(p)] *)
Definition splitext (p : string) : string * string :=
  let sepIndex := rfind "/" p in
  let dotIndex := rfind "." p in
  if (sepIndex <? dotIndex)%Z
     && negb (leading_dots_only p (Z.to_nat (sepIndex + 1))
                (Z.to_nat (dotIndex - (sepIndex + 1))))
  then (str_take (Z.to_nat dotIndex) p, str_drop (Z.to_nat dotIndex) p)
  else (p, "").

End PosixPath.

(** ** The output filename resolver *)

Module Resolver.
Import PyStr PosixPath.

(** The [while os.path.exists(fullFilename)] loop.  The file system is
    the finite set of paths that exist; a path is looked up as the
    string it is.  [fuel] bounds the number of iterations. *)
Fixpoint while_exists (fuel : nat) (fs : gset string)
    (counter : nat) (fullFilename : string) : option string :=
  match fuel with
  | 0 => None
  | S fuel' =>
      if bool_decide (fullFilename ∈ fs) then
        let counter := counter + 1 in
        while_exists fuel' fs counter
          ((splitext fullFilename).1 +:+ "_" +:+ str_nat counter +:+ ".csv")
      else Some fullFilename
  end.

(** [_check_filename(inSaveName, inSaveDir)].  Two more iterations than
    there are existing paths always suffice ([check_filename_total]). *)
Definition _check_filename (fs : gset string)
    (inSaveName inSaveDir : string) : option string :=
  while_exists (size fs + 2) fs 0 (join inSaveDir inSaveName).

(** A name the loop has built: a stem, an underscore, a counter and
    [.csv]. *)
Definition suffixed (p : string) : Prop :=
  ∃ r k, p = r +:+ "_" +:+ str_nat k +:+ ".csv".

(** The existing paths that are at least as long as [p]. *)
Definition longer_paths (fs : gset string) (p : string) : gset string :=
  filter (λ q, String.length p ≤ String.length q) fs.

End Resolver.

(** ** The subject / condition driver *)

Module Driver.
Import PyStr PosixPath Resolver.

(** Exception classes, as far as the script's handlers tell them
    apart: [except IOError] (in Python 3 the same class as [OSError],
    so every error of the operating system), [except AssertionError],
    and the rest. *)
Inductive exn :=
| IOError
| AssertionError
| KeyError (key : string)
| IndexError
| OtherError (cls : string).

Inductive Res (A : Type) :=
| Ok (a : A)
| Raise (e : exn).
Arguments Ok {A} a.
Arguments Raise {A} e.

Definition rbind {A B} (r : Res A) (k : A → Res B) : Res B :=
  match r with
  | Ok a => k a
  | Raise e => Raise e
  end.

(** [d[key]] on a dict that may lack the key, and [v[i]] on a sequence. *)
Definition getitem {A} (key : string) (o : option A) : Res A :=
  match o with
  | Some a => Ok a
  | None => Raise (KeyError key)
  end.

Definition getindex {A} (v : list A) (i : nat) : Res A :=
  match v !! i with
  | Some x => Ok x
  | None => Raise IndexError
  end.

(** The keys of the dict [loadName], in the order [for l in loadName]
    visits them: the order of insertion, as a dict has been iterated
    since Python 3.7. *)
Inductive polarity := pol_positive | pol_negative.

Definition polarity_key (l : polarity) : string :=
  match l with
  | pol_positive => "positive"
  | pol_negative => "negative"
  end.

(** The four [print] calls, each with the arguments of its [format]. *)
Inductive message :=
| MsgCondition (c : nat)
| MsgUsing (l : polarity) (useTrials : list nat)
| MsgCannotFind (file : string) (c : nat)
| MsgOnlyTrials (n : nat) (file : string) (c : nat).

(** What one pass through the body of [for c in range(1, 4)] ends in:
    the end of the [try] block, a [continue] in a handler, an exception
    that leaves the script, or a resolver loop that never exits. *)
Inductive outcome :=
| Processed
| Skipped
| Crashed (e : exn)
| Hang.

Inductive run :=
| Finished
| Uncaught (e : exn)
| Diverges.

Definition NL : string := String (Ascii.ascii_of_nat 10) EmptyString.

(** [printStr.format(a0, ..., a12)] *)
Definition printStr (a0 a1 a2 a3 a4 a5 a6 a7 a8 a9 a10 a11 a12 : string)
    : string :=
  a0 +:+ "," +:+ a1 +:+ "," +:+ a2 +:+ "," +:+ a3 +:+ "," +:+ a4 +:+ ","
     +:+ a5 +:+ "," +:+ a6 +:+ "," +:+ a7 +:+ "," +:+ a8 +:+ "," +:+ a9
     +:+ "," +:+ a10 +:+ "," +:+ a11 +:+ "," +:+ a12 +:+ NL.

Definition header_row : string :=
  printStr "Subject Name" "Condition" "Number of Draws" "Trials per Draw"
    "Frequency"
    "PLV**2: bootstrapped mean" "PLV**2: bootstrapped variance"
    "Spectrum: bootstrapped mean" "Spectrum: bootstrapped variance"
    "Noise floor PLV**2: bootstrapped mean"
    "Noise floor PLV**2: bootstrapped variance"
    "Noise floor Spectrum: bootstrapped mean"
    "Noise floor Spectrum: bootstrapped variance".

(** [loadName[l]] and [saveName] for subject [s] and condition [c]. *)
Definition loadName (s : string) (c : nat) (l : polarity) : string :=
  match l with
  | pol_positive => s +:+ "_S_" +:+ str_nat c +:+ ".mat"
  | pol_negative => s +:+ "_S_" +:+ str_nat (c + 6) +:+ ".mat"
  end.

Definition saveName (s : string) (c : nat) : string :=
  s +:+ "_condition_" +:+ str_nat c +:+ ".csv".

(** [range(1, 4)] *)
Definition conditions : list nat := [1; 2; 3].

(** An output file: the strings written to it so far, one per [write]
    call, and whether it has been closed. *)
Record OFile := mkOFile { rows : list string; closed : bool }.

Inductive io_op :=
| io_open (path : string)
| io_write (path data : string)
| io_close (path : string).

Section Model.
(** The generator state of [numpy.random], a floating-point value, and
    one trial of a trial matrix (its channels x samples slab).  A trial
    matrix is the list of its trials along axis 1, so [mat.shape[1]] is
    its length. *)
Context {RNG F Trial : Type}.

(** Modelled from the spec: the parameter dict that
    [spectral.generate_parameters] returns (sample rate, FFT length,
    passband, taper configuration, noise-floor method, draw count,
    trials per draw, worker count), with the frequency axis under key
    ['f'] when it is present. *)
Record Params := mkParams {
  Fs : Z;
  nfft : Z;
  fpass : list F;
  tapers : list Z;
  noiseFloorType : list string;
  nDraws : Z;
  nPerDraw : Z;
  threads : Z;
  f : option (list F) }.

(** The dict [io.loadmat] returns: the trial matrix under key ['data']
    and the scalar sample rate under key ['sampleRate'], either of
    which a file may lack. *)
Record MatFile := mkMatFile {
  data : option (list Trial);
  sampleRate : option Z }.

Inductive event :=
| EvPrint (m : message)
| EvLoad (path : string)
| EvBoot (combinedData : list (list Trial)) (p : Params).

(** What the script calls but does not define. [bootfunc] shares the
    parameter dict and the generator with the script, so it returns
    both as it leaves them. [io_fault] says whether an operation on
    an output file raises. *)
Record Env := mkEnv {
  loadmat : string → Res MatFile;
  permutation : nat → RNG → list nat * RNG;
  bootfunc : list (list Trial) → Params → RNG
             → Res (gmap string (gmap string (list F))) * Params * RNG;
  io_fault : io_op → gmap string OFile → option exn;
  str_float : F → string;
  str_array : list nat → string }.

(** The file system, what has been printed and called so far, the
    objects shared with the libraries, and the script's variables
    that outlive an iteration ([None] while unbound). *)
Record State := mkState {
  fs : gmap string OFile;
  trace : list event;
  rng : RNG;
  params : Params;
  v_l : option polarity;
  v_mat : option (list Trial);
  v_saveName : option string;
  v_outputFilename : option string;
  v_result : option (gmap string (gmap string (list F))) }.

Definition set_fs (x : gmap string OFile) (st : State) : State :=
  mkState x (trace st) (rng st) (params st) (v_l st) (v_mat st)
    (v_saveName st) (v_outputFilename st) (v_result st).
Definition add_event (e : event) (st : State) : State :=
  mkState (fs st) (trace st ++ [e]) (rng st) (params st) (v_l st)
    (v_mat st) (v_saveName st) (v_outputFilename st) (v_result st).
Definition set_rng (x : RNG) (st : State) : State :=
  mkState (fs st) (trace st) x (params st) (v_l st) (v_mat st)
    (v_saveName st) (v_outputFilename st) (v_result st).
Definition set_params (x : Params) (st : State) : State :=
  mkState (fs st) (trace st) (rng st) x (v_l st) (v_mat st)
    (v_saveName st) (v_outputFilename st) (v_result st).
Definition set_l (x : polarity) (st : State) : State :=
  mkState (fs st) (trace st) (rng st) (params st) (Some x) (v_mat st)
    (v_saveName st) (v_outputFilename st) (v_result st).
Definition set_mat (x : list Trial) (st : State) : State :=
  mkState (fs st) (trace st) (rng st) (params st) (v_l st) (Some x)
    (v_saveName st) (v_outputFilename st) (v_result st).
Definition set_saveName (x : string) (st : State) : State :=
  mkState (fs st) (trace st) (rng st) (params st) (v_l st) (v_mat st)
    (Some x) (v_outputFilename st) (v_result st).
Definition set_outputFilename (x : string) (st : State) : State :=
  mkState (fs st) (trace st) (rng st) (params st) (v_l st) (v_mat st)
    (v_saveName st) (Some x) (v_result st).
Definition set_result (x : gmap string (gmap string (list F)))
    (st : State) : State :=
  mkState (fs st) (trace st) (rng st) (params st) (v_l st) (v_mat st)
    (v_saveName st) (v_outputFilename st) (Some x).

(** *** State and exceptions *)

Definition M (A : Type) : Type := State → Res A * State.

Definition ret {A} (a : A) : M A := λ st, (Ok a, st).
Definition raise {A} (e : exn) : M A := λ st, (Raise e, st).
Definition bind {A B} (m : M A) (k : A → M B) : M B :=
  λ st, match m st with
        | (Ok a, st') => k a st'
        | (Raise e, st') => (Raise e, st')
        end.
Definition lift {A} (r : Res A) : M A := λ st, (r, st).
Definition modify (g : State → State) : M unit := λ st, (Ok tt, g st).
Definition gets {A} (g : State → A) : M A := λ st, (Ok (g st), st).

Notation "'do' x <- m ; k" := (bind m (λ x, k))
  (at level 10, x name, m at level 100, k at level 200).

(** A variable read: [NameError] while it is unbound. *)
Definition var {A} (o : option A) : M A :=
  match o with
  | Some a => ret a
  | None => raise (OtherError "NameError")
  end.

Definition py_assert (b : bool) : M unit :=
  if b then ret tt else raise AssertionError.

Definition print (m : message) : M unit := modify (add_event (EvPrint m)).

Variable env : Env.

Definition render (m : message) : string :=
  match m with
  | MsgCondition c => "condition: " +:+ str_nat c
  | MsgUsing l useTrials =>
      "using " +:+ polarity_key l +:+ " polarity trials:" +:+ NL +:+ " "
        +:+ str_array env useTrials
  | MsgCannotFind file c =>
      NL +:+ "Cannot find file: " +:+ file +:+ ", skipping,"
        +:+ "condition " +:+ str_nat c +:+ " " +:+ NL
  | MsgOnlyTrials n file c =>
      NL +:+ "Only " +:+ str_nat n +:+ " trials detected in " +:+ file
        +:+ ", " +:+ "skipping condition " +:+ str_nat c +:+ "..." +:+ NL
  end.

(** *** Output files *)

Definition file_open (path : string) : M unit :=
  λ st, match io_fault env (io_open path) (fs st) with
        | Some e => (Raise e, st)
        | None => (Ok tt, set_fs (<[path := mkOFile [] false]> (fs st)) st)
        end.

Definition file_write (path data : string) : M unit :=
  λ st, match io_fault env (io_write path data) (fs st) with
        | Some e => (Raise e, st)
        | None =>
            (Ok tt,
             set_fs (alter (λ o, mkOFile (rows o ++ [data]) (closed o))
                       path (fs st)) st)
        end.

(** [outputFile.close()]: the file object is closed whether or not
    the flush that [close] performs raises. *)
Definition file_close (path : string) : M unit :=
  λ st, let st' :=
          set_fs (alter (λ o, mkOFile (rows o) true) path (fs st)) st in
        match io_fault env (io_close path) (fs st) with
        | Some e => (Raise e, st')
        | None => (Ok tt, st')
        end.

(** *** The calls into numpy, scipy and anlffr *)

Definition io_loadmat (path : string) : M MatFile :=
  do _ <- modify (add_event (EvLoad path)); lift (loadmat env path).

Definition random_permutation (n : nat) : M (list nat) :=
  λ st, let '(p, g) := permutation env n (rng st) in (Ok p, set_rng g st).

Definition bootstrap_bootfunc (combinedData : list (list Trial))
    : M (gmap string (gmap string (list F))) :=
  λ st, let '(r, p, g) := bootfunc env combinedData (params st) (rng st) in
        (r, set_rng g (set_params p
                         (add_event (EvBoot combinedData (params st)) st))).

(** [mat[:, useTrials, :]] *)
Definition take_trials (mat : list Trial) (useTrials : list nat)
    : M (list Trial) :=
  match mapM (λ j, mat !! j) useTrials with
  | Some sub => ret sub
  | None => raise IndexError
  end.

(** [result[variant][statistic][plvF]] *)
Definition stat (result : gmap string (gmap string (list F)))
    (variant statistic : string) (plvF : nat) : Res F :=
  rbind (getitem variant (result !! variant)) (λ d,
  rbind (getitem statistic (d !! statistic)) (λ v,
  getindex v plvF)).

Variables (dataDir saveDir : string) (minTrials : Z).

Section Condition.
Variables (s : string) (c : nat).

(** The body of [for l in loadName] from [mat = wholeMat['data']]
    on. *)
Definition use_mat (l : polarity) (combinedData : list (list Trial))
    (wholeMat : MatFile) : M (list (list Trial)) :=
  do mat <- lift (getitem "data" (data wholeMat));
  do _ <- modify (set_mat mat);
  do sampleRateFromFile <- lift (getitem "sampleRate"
                                   (sampleRate wholeMat));
  do _ <- py_assert (minTrials <? Z.of_nat (length mat))%Z;
  do p <- gets params;
  do _ <- py_assert (sampleRateFromFile =? Fs p)%Z;
  do permutedTrials <- random_permutation (length mat);
  let useTrials := slice_to minTrials permutedTrials in
  do _ <- print (MsgUsing l useTrials);
  do sub <- take_trials mat useTrials;
  ret (combinedData ++ [sub]).

(** The body of [for l in loadName]. *)
Definition load_polarity (l : polarity)
    (combinedData : list (list Trial)) : M (list (list Trial)) :=
  do _ <- modify (set_l l);
  do wholeMat <- io_loadmat (join dataDir (loadName s c l));
  use_mat l combinedData wholeMat.

(** The string [toWrite] for frequency bin [plvF]. *)
Definition data_row (p : Params)
    (result : gmap string (gmap string (list F))) (plvF : nat)
    : Res string :=
  rbind (getitem "f" (f p)) (λ fl,
  rbind (getindex fl plvF) (λ fq,
  rbind (stat result "mtcpcaPLV_normalPhase" "bootMean" plvF) (λ pm,
  rbind (stat result "mtcpcaPLV_normalPhase" "bootVariance" plvF) (λ pv,
  rbind (stat result "mtcpcaSpectrum_normalPhase" "bootMean" plvF) (λ sm,
  rbind (stat result "mtcpcaSpectrum_normalPhase" "bootVariance" plvF)
    (λ sv,
  rbind (stat result "mtcpcaPLV_phaseFlipHalfTrials" "bootMean" plvF)
    (λ npm,
  rbind (stat result "mtcpcaPLV_phaseFlipHalfTrials" "bootVariance" plvF)
    (λ npv,
  rbind (stat result "mtcpcaSpectrum_phaseFlipHalfTrials" "bootMean" plvF)
    (λ nsm,
  rbind (stat result "mtcpcaSpectrum_phaseFlipHalfTrials" "bootVariance"
           plvF) (λ nsv,
  Ok (printStr s (str_nat c) (str_Z (nDraws p)) (str_Z (nPerDraw p))
        (str_float env fq)
        (str_float env pm) (str_float env pv)
        (str_float env sm) (str_float env sv)
        (str_float env npm) (str_float env npv)
        (str_float env nsm) (str_float env nsv)))))))))))).

(** [for plvF in range(len(params['f']))] *)
Fixpoint write_rows (outputFilename : string)
    (result : gmap string (gmap string (list F)))
    (bins : list nat) : M unit :=
  match bins with
  | [] => ret tt
  | plvF :: bins' =>
      do p <- gets params;
      do toWrite <- lift (data_row p result plvF);
      do _ <- file_write outputFilename toWrite;
      write_rows outputFilename result bins'
  end.

(** The [try] block from the assignment of [result] to
    [outputFile.close()]. *)
Definition write_results (outputFilename : string)
    (result : gmap string (gmap string (list F))) : M unit :=
  do _ <- modify (set_result result);
  do _ <- file_write outputFilename header_row;
  do p <- gets params;
  do fl <- lift (getitem "f" (f p));
  do _ <- write_rows outputFilename result (seq 0 (length fl));
  file_close outputFilename.

(** The [try] block. *)
Definition try_block (outputFilename : string) : M unit :=
  do combinedData <- load_polarity pol_positive [];
  do combinedData <- load_polarity pol_negative combinedData;
  do result <- bootstrap_bootfunc combinedData;
  write_results outputFilename result.

(** The two handlers; any other exception passes through. *)
Definition handlers (e : exn) : M outcome :=
  match e with
  | IOError =>
      do l <- (do v <- gets v_l; var v);
      do _ <- print (MsgCannotFind (loadName s c l) c);
      ret Skipped
  | AssertionError =>
      do mat <- (do v <- gets v_mat; var v);
      do l <- (do v <- gets v_l; var v);
      do _ <- print (MsgOnlyTrials (length mat) (loadName s c l) c);
      ret Skipped
  | _ => raise e
  end.

Definition finish (r : Res outcome * State) : outcome * State :=
  match r with
  | (Ok o, st) => (o, st)
  | (Raise e, st) => (Crashed e, st)
  end.

(** The body of [for c in range(1, 4)]. *)
Definition condition_body (st : State) : outcome * State :=
  let st := add_event (EvPrint (MsgCondition c)) st in
  let st := set_saveName (saveName s c) st in
  match _check_filename (dom (fs st)) (saveName s c) saveDir with
  | None => (Hang, st)
  | Some outputFilename =>
      let st := set_outputFilename outputFilename st in
      match file_open outputFilename st with
      | (Raise e, st) => (Crashed e, st)
      | (Ok _, st) =>
          match try_block outputFilename st with
          | (Ok _, st) => (Processed, st)
          | (Raise e, st) => finish (handlers e st)
          end
      end
  end.

(** The state in which the [try] block starts once the resolver has
    returned [outputFilename] and the file has been opened. *)
Definition opened (outputFilename : string) (st : State) : State :=
  let st := add_event (EvPrint (MsgCondition c)) st in
  let st := set_saveName (saveName s c) st in
  let st := set_outputFilename outputFilename st in
  set_fs (<[outputFilename := mkOFile [] false]> (fs st)) st.

(** The loop over the polarities gets to [l] in state [st2] with
    [acc] in [combinedData], the [try] block having started in
    [st1]. *)
Definition reaches (l : polarity) (st1 st2 : State)
    (acc : list (list Trial)) : Prop :=
  match l with
  | pol_positive => st2 = st1 ∧ acc = []
  | pol_negative => load_polarity pol_positive [] st1 = (Ok acc, st2)
  end.

(** The state in which the file of polarity [l] has been loaded and
    [mat] assigned, which is where either assertion fails. *)
Definition loaded (l : polarity) (mat : list Trial) (st : State)
    : State :=
  set_mat mat
    (add_event (EvLoad (join dataDir (loadName s c l))) (set_l l st)).
End Condition.

Fixpoint for_conditions (s : string) (cs : list nat) (st : State)
    : run * State :=
  match cs with
  | [] => (Finished, st)
  | c :: cs' =>
      match condition_body s c st with
      | (Processed, st') | (Skipped, st') => for_conditions s cs' st'
      | (Crashed e, st') => (Uncaught e, st')
      | (Hang, st') => (Diverges, st')
      end
  end.

(** [for s in subjectList: for c in range(1, 4): ...] *)
Fixpoint main (subjectList : list string) (st : State) : run * State :=
  match subjectList with
  | [] => (Finished, st)
  | s :: rest =>
      match for_conditions s conditions st with
      | (Finished, st') => main rest st'
      | r => r
      end
  end.

(** The calls to the estimator in a trace, in order. *)
Definition estimator_calls (tr : list event)
    : list (list (list Trial) * Params) :=
  omap (λ e, match e with EvBoot d p => Some (d, p) | _ => None end) tr.

(** The condition a skip message reports. *)
Definition skip_condition (e : option event) : option nat :=
  match e with
  | Some (EvPrint (MsgCannotFind _ c)) => Some c
  | Some (EvPrint (MsgOnlyTrials _ _ c)) => Some c
  | _ => None
  end.

(** [m] relates the state it starts in to the state it ends in by
    [R], whatever it returns. *)
Definition preserves {A} (R : State → State → Prop) (m : M A) : Prop :=
  ∀ st, R st (m st).2.

End Model.

Arguments Params : clear implicits.
Arguments MatFile : clear implicits.
Arguments event : clear implicits.
Arguments Env : clear implicits.
Arguments State : clear implicits.

End Driver.

(** ** A small recording session to run the driver on *)

Module Scenario.
Import PyStr PosixPath Resolver Driver.

(** The parameter dict of the script for a given [minTrials]; the
    estimator has not yet put a frequency axis in it. *)
Definition script_params (minTrials : Z) : Params Z :=
  mkParams 5000 2048 [70; 1000]%Z [2; 3]%Z ["phaseFlipHalfTrials"]
    100 minTrials 6 None.

Definition one_stat : gmap string (list Z) :=
  <["bootMean" := [1; 2]%Z]> (<["bootVariance" := [3; 4]%Z]> ∅).

Definition some_result : gmap string (gmap string (list Z)) :=
  <["mtcpcaPLV_normalPhase" := one_stat]>
    (<["mtcpcaSpectrum_normalPhase" := one_stat]>
       (<["mtcpcaPLV_phaseFlipHalfTrials" := one_stat]>
          (<["mtcpcaSpectrum_phaseFlipHalfTrials" := one_stat]> ∅))).

(** Subject [s]: condition 1 is complete, the positive file of
    condition 2 holds exactly two trials, the negative file of
    condition 3 was recorded at 4096 Hz. *)
Definition recordings : gmap string (MatFile nat) :=
  <["data/s_S_1.mat" := mkMatFile (Some [10; 11; 12; 13; 14]) (Some 5000%Z)]>
 (<["data/s_S_7.mat" := mkMatFile (Some [70; 71; 72; 73]) (Some 5000%Z)]>
 (<["data/s_S_2.mat" := mkMatFile (Some [20; 21]) (Some 5000%Z)]>
 (<["data/s_S_8.mat" := mkMatFile (Some [80; 81; 82]) (Some 5000%Z)]>
 (<["data/s_S_3.mat" := mkMatFile (Some [30; 31; 32]) (Some 5000%Z)]>
 (<["data/s_S_9.mat" := mkMatFile (Some [90; 91; 92; 93; 94; 95])
                          (Some 4096%Z)]> ∅))))).

Definition no_fault (op : io_op) (files : gmap string OFile) : option exn :=
  None.

(** A disk on which every write fails. *)
Definition disk_full (op : io_op) (files : gmap string OFile)
    : option exn :=
  match op with
  | io_write _ _ => Some IOError
  | _ => None
  end.

(** The generator state counts the draws; a draw reverses the indices.
    The estimator returns [some_result] and leaves a two-bin frequency
    axis in the parameter dict. *)
Definition world (fault : io_op → gmap string OFile → option exn)
    : Env nat Z nat :=
  mkEnv
    (λ path, match recordings !! path with
             | Some w => Ok w
             | None => Raise IOError
             end)
    (λ n g, (rev (seq 0 n), S g))
    (λ d p g,
       (Ok some_result,
        mkParams (Fs p) (nfft p) (fpass p) (tapers p) (noiseFloorType p)
          (nDraws p) (nPerDraw p) (threads p) (Some [70; 75]%Z),
        S g))
    fault str_Z
    (λ l, "[" +:+ String.concat " " (map str_nat l) +:+ "]").

Definition start (minTrials : Z) : State nat Z nat :=
  mkState ∅ [] 0 (script_params minTrials) None None None None None.

(** The state in which the negative file of condition [c] is about to be
    loaded, and what [combinedData] holds then. *)
Definition before_negative (minTrials : Z) (c : nat) (out : string)
    (st : State nat Z nat) : Res (list (list nat)) * State nat Z nat :=
  load_polarity (world no_fault) "data" minTrials "s" c pol_positive []
    (opened "s" c out st).

End Scenario.

(** ** The names the resolver goes through *)

Module ResolverNames.
Import PyStr PosixPath.

(** [stem_1_2_..._k]: what is left of the [k]-th name the loop builds
    once its [.csv] is taken off. *)
Fixpoint piled (stem : string) (k : nat) : string :=
  match k with
  | 0 => stem
  | S j => piled stem j +:+ "_" +:+ str_nat (S j)
  end.

(** The value of [fullFilename] after [k] passes of the loop that
    started at [fullFilename]. *)
Definition candidate (fullFilename : string) (k : nat) : string :=
  match k with
  | 0 => fullFilename
  | S _ => piled (splitext fullFilename).1 k +:+ ".csv"
  end.

(** The part of a path up to and including its last slash. *)
Definition dir_prefix (p : string) : string :=
  str_take (Z.to_nat (rfind "/" p + 1)) p.

End ResolverNames.

(** ** The state of an output file *)

Module DriverNotions.
Import Driver.

Section Notions.
Context {RNG F Trial : Type}.

(** The file at [path] is there and has not been closed. *)
Definition unclosed (path : string) (st : State RNG F Trial) : Prop :=
  ∃ o, fs st !! path = Some o ∧ closed o = false.

(** If the file at [path] is open in [a], it is open in [b]. *)
Definition stays_unclosed (path : string) (a b : State RNG F Trial)
    : Prop :=
  unclosed path a → unclosed path b.

(** What has been printed and called in [a] is how the trace of [b]
    begins. *)
Definition grows (a b : State RNG F Trial) : Prop :=
  ∃ tail, trace b = trace a ++ tail.
End Notions.

End DriverNotions.

(** ** The text of an output file *)

Module CsvText.
Import Driver.

(** How often the character [a] occurs in [s]. *)
Fixpoint count_char (a : ascii) (s : string) : nat :=
  match s with
  | EmptyString => 0
  | String b t => (if Ascii.eqb a b then 1 else 0) + count_char a t
  end.

(** What a file holds: the strings written to it, one after the
    other. *)
Definition file_text (o : OFile) : string :=
  foldr String.append "" (rows o).

End CsvText.

(** ** An estimator that leaves the parameter dict as it finds it *)

Module ScenarioNoAxis.
Import Driver Scenario.

(** The recordings and the generator of [Scenario.world]; the
    estimator returns [some_result] and puts no frequency axis into
    [params]. *)
Definition world_without_axis : Env nat Z nat :=
  mkEnv (loadmat (world no_fault)) (permutation (world no_fault))
    (λ d p g, (Ok some_result, p, g))
    no_fault PyStr.str_Z (str_array (world no_fault)).

(** Every [open] and [write] succeeds; every [close] raises
    [IOError]. *)
Definition close_fails (op : io_op) (files : gmap string OFile)
    : option exn :=
  match op with
  | io_close _ => Some IOError
  | _ => None
  end.

End ScenarioNoAxis.

(** * Facts about the Python string primitives *)

Section StringFacts.
Import PyStr.

Lemma app_nil (t : string) : "" +:+ t = t.
Proof. reflexivity. Qed.

Lemma app_cons (a : ascii) (s t : string) :
  String a s +:+ t = String a (s +:+ t).
Proof. reflexivity. Qed.

Lemma app_assoc_str (s t u : string) : (s +:+ t) +:+ u = s +:+ t +:+ u.
Proof.
  induction s as [|a s IH]; [reflexivity|].
  rewrite !app_cons. now rewrite IH.
Qed.

Lemma length_app_str (s t : string) :
  String.length (s +:+ t) = String.length s + String.length t.
Proof.
  induction s as [|a s IH]; [reflexivity|].
  rewrite app_cons. simpl. now rewrite IH.
Qed.

Lemma app_inv_tail_str (s t u : string) : s +:+ u = t +:+ u → s = t.
Proof.
  revert t. induction s as [|a s IH]; intros [|b t] H.
  - reflexivity.
  - apply (f_equal String.length) in H.
    rewrite app_nil, app_cons in H. simpl in H.
    rewrite length_app_str in H. lia.
  - apply (f_equal String.length) in H.
    rewrite app_nil, app_cons in H. simpl in H.
    rewrite length_app_str in H. lia.
  - rewrite !app_cons in H. injection H as -> H. f_equal. now apply IH.
Qed.

Lemma rfind_bounds (c : ascii) (s : string) :
  (-1 ≤ rfind c s < Z.of_nat (String.length s))%Z.
Proof.
  induction s as [|a s IH]; simpl; [lia|].
  destruct (Z.leb_spec 0 (rfind c s)); [lia|].
  destruct (Ascii.eqb a c); lia.
Qed.

Lemma rfind_app (c : ascii) (s t : string) :
  rfind c (s +:+ t) =
    if (0 <=? rfind c t)%Z
    then (Z.of_nat (String.length s) + rfind c t)%Z
    else rfind c s.
Proof.
  induction s as [|a s IH].
  - rewrite app_nil. simpl. destruct (Z.leb_spec 0 (rfind c t)); [lia|].
    pose proof (rfind_bounds c t). lia.
  - rewrite app_cons. cbn [rfind String.length]. rewrite IH.
    destruct (Z.leb_spec 0 (rfind c t)) as [Hge|Hlt].
    + destruct (Z.leb_spec 0 (Z.of_nat (String.length s) + rfind c t)); lia.
    + reflexivity.
Qed.

Lemma str_take_app_length (s t : string) :
  str_take (String.length s) (s +:+ t) = s.
Proof.
  induction s as [|a s IH].
  - destruct t; reflexivity.
  - rewrite app_cons. simpl. now rewrite IH.
Qed.

Lemma get_app_length (s t : string) (a : ascii) :
  String.get (String.length s) (s +:+ String a t) = Some a.
Proof. induction s as [|b s IH]; [reflexivity|]. rewrite app_cons. exact IH. Qed.

(** The digits of a decimal numeral hold neither a slash nor a dot. *)
Lemma rfind_string_of_uint (c : ascii) (d : Decimal.uint) :
  c = "/"%char ∨ c = "."%char →
  rfind c (NilEmpty.string_of_uint d) = (-1)%Z.
Proof.
  intros Hc. induction d; simpl; try reflexivity; rewrite IHd;
    destruct Hc as [-> | ->]; reflexivity.
Qed.

Lemma rfind_str_nat (c : ascii) (n : nat) :
  c = "/"%char ∨ c = "."%char → rfind c (str_nat n) = (-1)%Z.
Proof. apply rfind_string_of_uint. Qed.

Lemma str_nat_inj (m n : nat) : str_nat m = str_nat n → m = n.
Proof.
  unfold str_nat. intros H.
  apply (f_equal NilEmpty.uint_of_string) in H.
  rewrite !NilEmpty.usu in H. injection H as H.
  apply (f_equal Nat.of_uint) in H.
  now rewrite !Unsigned.of_to in H.
Qed.

End StringFacts.

(** * Facts about [os.path.splitext] *)

Section SplitextFacts.
Import PyStr PosixPath.

(** A character other than a dot stops the scan over leading dots. *)
Lemma leading_dots_only_stops (p : string) (a : ascii) (j n i : nat) :
  String.get j p = Some a → a ≠ "."%char → i ≤ j < i + n →
  leading_dots_only p i n = false.
Proof.
  revert i. induction n as [|n IH]; intros i Hget Hne Hj; [lia|].
  simpl. destruct (String.get i p) as [b|] eqn:Hb; [|reflexivity].
  destruct (Ascii.eqb_spec b "."%char) as [->|Hb']; [|reflexivity].
  destruct (decide (i = j)) as [->|Hij]; [congruence|].
  apply IH; [assumption..|lia].
Qed.

(** The root of [r_digits.csv] is [r_digits]. *)
Lemma splitext_suffixed (r : string) (k : nat) :
  (splitext (r +:+ "_" +:+ str_nat k +:+ ".csv")).1
  = r +:+ "_" +:+ str_nat k.
Proof.
  set (ds := str_nat k).
  assert (Hp : r +:+ "_" +:+ ds +:+ ".csv" = (r +:+ "_" +:+ ds) +:+ ".csv")
    by now rewrite !app_assoc_str.
  rewrite Hp. set (root := r +:+ "_" +:+ ds).
  assert (Hdot : rfind "." (root +:+ ".csv")
                 = Z.of_nat (String.length root)).
  { rewrite rfind_app. change (rfind "." ".csv") with 0%Z. simpl. lia. }
  assert (Hsep : rfind "/" (root +:+ ".csv") = rfind "/" r).
  { rewrite rfind_app. change (rfind "/" ".csv") with (-1)%Z.
    cbn [Z.leb Z.compare]. unfold root. rewrite rfind_app.
    assert (rfind "/" ("_" +:+ ds) = (-1)%Z) as ->.
    { rewrite rfind_app. unfold ds. rewrite rfind_str_nat by auto.
      reflexivity. }
    reflexivity. }
  pose proof (rfind_bounds "/" r) as Hb.
  assert (Hlen : String.length root = String.length r + (1 + String.length ds)).
  { unfold root. now rewrite !length_app_str. }
  unfold splitext. rewrite Hdot, Hsep.
  assert ((rfind "/" r <? Z.of_nat (String.length root))%Z = true) as ->
    by (apply Z.ltb_lt; lia).
  rewrite (leading_dots_only_stops _ "_"%char (String.length r)).
  - cbn [andb negb fst]. rewrite Nat2Z.id. apply str_take_app_length.
  - unfold root. rewrite !app_assoc_str.
    change ("_" +:+ ds +:+ ".csv") with (String "_" (ds +:+ ".csv")).
    apply get_app_length.
  - discriminate.
  - lia.
Qed.

End SplitextFacts.

(** * The resolver always finds a free name *)

Section ResolverFacts.
Import PyStr PosixPath Resolver.

Lemma suffixed_ends_csv (p : string) :
  suffixed p → ∃ stem, p = stem +:+ ".csv".
Proof.
  intros (r & k & ->). exists (r +:+ "_" +:+ str_nat k).
  now rewrite !app_assoc_str.
Qed.

(** From a name the loop has built, the next name is longer. *)
Lemma next_name_longer (p : string) (k : nat) :
  suffixed p →
  String.length p
  < String.length ((splitext p).1 +:+ "_" +:+ str_nat k +:+ ".csv").
Proof.
  intros (r & j & ->). rewrite splitext_suffixed.
  rewrite !length_app_str. simpl. lia.
Qed.

Lemma longer_paths_shrink (fs : gset string) (p q : string) :
  p ∈ fs → String.length p < String.length q →
  size (longer_paths fs q) < size (longer_paths fs p).
Proof.
  intros Hin Hlt. apply subset_size. unfold longer_paths. split.
  - intros x. rewrite !elem_of_filter. intros [? ?]. split; [lia|done].
  - intros Hsub. assert (Hp : p ∈ filter (λ x, String.length q ≤ String.length x) fs).
    { apply Hsub. apply elem_of_filter. split; [lia|done]. }
    apply elem_of_filter in Hp as [? _]. lia.
Qed.

Lemma while_exists_total (fuel : nat) (fs : gset string)
    (counter : nat) (p : string) :
  suffixed p → size (longer_paths fs p) < fuel →
  ∃ r, while_exists fuel fs counter p = Some r ∧ (r ∉ fs) ∧ suffixed r.
Proof.
  revert counter p. induction fuel as [|fuel IH]; intros counter p Hs Hm.
  - lia.
  - simpl. case_bool_decide as Hin.
    + apply IH.
      * eexists _, _. reflexivity.
      * pose proof (longer_paths_shrink fs p _ Hin
                      (next_name_longer p (counter + 1) Hs)). lia.
    + exists p. done.
Qed.

Lemma longer_paths_size (fs : gset string) (p : string) :
  size (longer_paths fs p) ≤ size fs.
Proof.
  apply subseteq_size. intros x. unfold longer_paths.
  rewrite elem_of_filter. tauto.
Qed.

(** The loop exits within its bound, at a name that does not exist. *)
Lemma check_filename_total (fs : gset string) (inSaveName inSaveDir : string) :
  ∃ r, _check_filename fs inSaveName inSaveDir = Some r ∧ r ∉ fs.
Proof.
  unfold _check_filename.
  replace (size fs + 2) with (S (S (size fs))) by lia.
  cbn [while_exists]. case_bool_decide as Hin.
  - destruct (while_exists_total (S (size fs)) fs (0 + 1)
                ((splitext (join inSaveDir inSaveName)).1 +:+ "_"
                   +:+ str_nat (0 + 1) +:+ ".csv")) as (r & Hr & Hfree & _).
    + eexists _, _. reflexivity.
    + pose proof (longer_paths_size fs
                    ((splitext (join inSaveDir inSaveName)).1 +:+ "_"
                       +:+ str_nat (0 + 1) +:+ ".csv")). lia.
    + exists r. done.
  - eexists. done.
Qed.

(** A base name that does not exist comes back unchanged. *)
Lemma check_filename_free (fs : gset string) (inSaveName inSaveDir : string) :
  join inSaveDir inSaveName ∉ fs →
  _check_filename fs inSaveName inSaveDir = Some (join inSaveDir inSaveName).
Proof.
  intros Hfree. unfold _check_filename.
  replace (size fs + 2) with (S (S (size fs))) by lia.
  cbn [while_exists]. now rewrite bool_decide_eq_false_2.
Qed.

(** The first collision gives the stem, [_1] and [.csv]. *)
Lemma check_filename_first_suffix (fs : gset string)
    (inSaveName inSaveDir : string) :
  join inSaveDir inSaveName ∈ fs →
  (splitext (join inSaveDir inSaveName)).1 +:+ "_1.csv" ∉ fs →
  _check_filename fs inSaveName inSaveDir
  = Some ((splitext (join inSaveDir inSaveName)).1 +:+ "_1.csv").
Proof.
  intros Hin Hfree. unfold _check_filename.
  replace (size fs + 2) with (S (S (size fs))) by lia.
  cbn [while_exists]. rewrite bool_decide_eq_true_2 by done.
  change ("_" +:+ str_nat (0 + 1) +:+ ".csv") with "_1.csv".
  now rewrite bool_decide_eq_false_2.
Qed.

(** C10: once the loop has run at all, the name it returns ends in
    [.csv], whatever the extension of the requested name was; a request
    for [x.txt] that exists is answered with [x_1.csv]. *)
Theorem check_filename_suffix_forces_csv :
  (∀ (fs : gset string) (inSaveName inSaveDir : string),
     join inSaveDir inSaveName ∈ fs →
     ∃ stem, _check_filename fs inSaveName inSaveDir = Some (stem +:+ ".csv")
             ∧ stem +:+ ".csv" ∉ fs)
  ∧ splitext "x.txt" = ("x", ".txt")
  ∧ _check_filename {["x.txt"]} "x.txt" "" = Some "x_1.csv".
Proof.
  split; [|split; vm_compute; reflexivity].
  intros fs inSaveName inSaveDir Hin. unfold _check_filename.
  replace (size fs + 2) with (S (S (size fs))) by lia.
  cbn [while_exists]. rewrite bool_decide_eq_true_2 by done.
  destruct (while_exists_total (S (size fs)) fs (0 + 1)
              ((splitext (join inSaveDir inSaveName)).1 +:+ "_"
                 +:+ str_nat (0 + 1) +:+ ".csv")) as (r & Hr & Hfree & Hs).
  - eexists _, _. reflexivity.
  - pose proof (longer_paths_size fs
                  ((splitext (join inSaveDir inSaveName)).1 +:+ "_"
                     +:+ str_nat (0 + 1) +:+ ".csv")). lia.
  - destruct (suffixed_ends_csv r Hs) as [stem ->]. exists stem. done.
Qed.

Lemma check_filename_suffix_forces_csv_witness :
  "d/x.txt" ∈ ({["d/x.txt"; "d/x_1.csv"]} : gset string)
  ∧ ∃ stem, _check_filename {["d/x.txt"; "d/x_1.csv"]} "x.txt" "d"
            = Some (stem +:+ ".csv")
            ∧ stem +:+ ".csv" ∉ ({["d/x.txt"; "d/x_1.csv"]} : gset string).
Proof.
  assert (H : "d/x.txt" ∈ ({["d/x.txt"; "d/x_1.csv"]} : gset string))
    by (vm_compute; reflexivity).
  split; [exact H|].
  exact (proj1 check_filename_suffix_forces_csv _ "x.txt" "d" H).
Defined.

(** C1, at the input where the code leaves the claim: with [x.csv] and
    [x_1.csv] both present in the directory and [x_2.csv] free, the
    resolver returns [x_1_2.csv]: it splits the extension off the previous
    candidate, not off the requested name. Up to the first collision it
    does what the claim says. *)
Theorem check_filename_second_collision :
  _check_filename {["out/x.csv"; "out/x_1.csv"]} "x.csv" "out"
  = Some "out/x_1_2.csv"
  ∧ ("out/x_2.csv" ∉ ({["out/x.csv"; "out/x_1.csv"]} : gset string))
  ∧ _check_filename {["out/x.csv"]} "x.csv" "out" = Some "out/x_1.csv"
  ∧ _check_filename ∅ "x.csv" "out" = Some "out/x.csv".
Proof.
  repeat split; try (vm_compute; reflexivity).
  intros H. apply elem_of_union in H as [H|H];
    apply elem_of_singleton in H; discriminate.
Qed.

End ResolverFacts.

(** * The names the resolver builds *)

Section ResolverNamesFacts.
Import PyStr PosixPath Resolver ResolverNames.

Lemma while_exists_mono (fuel fuel' : nat) (fs : gset string)
    (counter : nat) (p r : string) :
  while_exists fuel fs counter p = Some r → fuel ≤ fuel' →
  while_exists fuel' fs counter p = Some r.
Proof.
  revert fuel' counter p. induction fuel as [|fuel IH];
    intros fuel' counter p Hr Hle; [discriminate|].
  destruct fuel' as [|fuel']; [lia|]. simpl in *.
  case_bool_decide; [|exact Hr]. apply IH; [exact Hr|lia].
Qed.

(** One pass of the loop takes the [k]-th name to the next one. *)
Lemma candidate_step (p0 : string) (k : nat) :
  (splitext (candidate p0 k)).1 +:+ "_" +:+ str_nat (k + 1) +:+ ".csv"
  = candidate p0 (S k).
Proof.
  destruct k as [|k].
  - cbn [candidate piled Nat.add]. now rewrite !app_assoc_str.
  - cbn [candidate piled]. rewrite !app_assoc_str.
    rewrite splitext_suffixed. rewrite Nat.add_1_r.
    now rewrite !app_assoc_str.
Qed.

(** The loop stops at the first name of the sequence that does not
    exist. *)
Lemma while_exists_candidate (fuel : nat) (fs : gset string) (p0 : string)
    (j : nat) (r : string) :
  while_exists fuel fs j (candidate p0 j) = Some r →
  ∃ k, j ≤ k ∧ r = candidate p0 k
       ∧ (∀ i, j ≤ i < k → candidate p0 i ∈ fs) ∧ r ∉ fs.
Proof.
  revert j. induction fuel as [|fuel IH]; intros j Hr; [discriminate|].
  cbn [while_exists] in Hr. case_bool_decide as Hin.
  - rewrite candidate_step, Nat.add_1_r in Hr.
    destruct (IH _ Hr) as (k & Hk & -> & Hall & Hfree).
    exists k. split; [lia|]. split; [reflexivity|]. split; [|exact Hfree].
    intros i Hi. destruct (decide (i = j)) as [->|Hne]; [exact Hin|].
    apply Hall. lia.
  - injection Hr as <-. exists j. split; [lia|]. split; [reflexivity|].
    split; [|exact Hin]. intros i Hi. lia.
Qed.

Lemma check_filename_candidate (fs : gset string)
    (inSaveName inSaveDir : string) :
  ∃ k, _check_filename fs inSaveName inSaveDir
       = Some (candidate (join inSaveDir inSaveName) k)
       ∧ (∀ i, i < k → candidate (join inSaveDir inSaveName) i ∈ fs)
       ∧ candidate (join inSaveDir inSaveName) k ∉ fs.
Proof.
  destruct (check_filename_total fs inSaveName inSaveDir) as (r & Hr & _).
  pose proof Hr as Hw. unfold _check_filename in Hw.
  apply (while_exists_candidate _ _ (join inSaveDir inSaveName) 0) in Hw
    as (k & _ & -> & Hall & Hfree).
  exists k. split; [exact Hr|]. split; [|exact Hfree].
  intros i Hi. apply Hall. lia.
Qed.

Lemma piled_app (stem : string) (k : nat) :
  piled stem k = stem +:+ piled "" k.
Proof.
  induction k as [|k IH]; cbn [piled].
  - revert stem. induction stem as [|a t IHt]; [reflexivity|].
    rewrite app_cons. now rewrite <- IHt.
  - rewrite IH. now rewrite !app_assoc_str.
Qed.

(** The names that follow [r_c.csv] keep [r_c] and pile the counters
    behind it. *)
Lemma candidate_suffixed (r : string) (n k : nat) :
  candidate (r +:+ "_" +:+ str_nat n +:+ ".csv") k
  = r +:+ "_" +:+ str_nat n +:+ piled "" k +:+ ".csv".
Proof.
  destruct k as [|k].
  - cbn [candidate piled]. now rewrite app_nil.
  - unfold candidate. rewrite splitext_suffixed.
    rewrite (piled_app _ (S k)). now rewrite !app_assoc_str.
Qed.

Lemma join_relative (a b : string) :
  startswith "/" b = false →
  join a b
  = (if String.eqb a "" || endswith "/" a then a else a +:+ "/") +:+ b.
Proof.
  intros Hb. unfold join. rewrite Hb.
  destruct (String.eqb a "" || endswith "/" a); [reflexivity|].
  now rewrite app_assoc_str.
Qed.

Lemma startswith_app (a : ascii) (s t : string) :
  startswith a s = false → startswith a t = false →
  startswith a (s +:+ t) = false.
Proof.
  intros Hs Ht. destruct s as [|b s']; [now rewrite app_nil|].
  now rewrite app_cons.
Qed.

End ResolverNamesFacts.

(** * The driver *)

Section DriverFacts.
Import PyStr PosixPath Resolver Driver.
Context {RNG F Trial : Type}.
Variable env : Env RNG F Trial.
Variables (dataDir saveDir : string) (minTrials : Z).

Abbreviation St := (State RNG F Trial).
Abbreviation body := (condition_body env dataDir saveDir minTrials).
Abbreviation load := (load_polarity env dataDir minTrials).

(** ** What a computation leaves alone *)

Section Preserves.
Variable R : St → St → Prop.
Hypothesis R_refl : ∀ st, R st st.
Hypothesis R_trans : ∀ a b c, R a b → R b c → R a c.

Lemma preserves_ret {A} (a : A) : preserves R (ret a).
Proof. intros st. apply R_refl. Qed.

Lemma preserves_raise {A} (e : exn) : preserves R (@raise _ _ _ A e).
Proof. intros st. apply R_refl. Qed.

Lemma preserves_lift {A} (r : Res A) : preserves R (lift r).
Proof. intros st. apply R_refl. Qed.

Lemma preserves_gets {A} (g : St → A) : preserves R (gets g).
Proof. intros st. apply R_refl. Qed.

Lemma preserves_var {A} (o : option A) : preserves R (var o).
Proof. destruct o; intros st; apply R_refl. Qed.

Lemma preserves_py_assert (b : bool) : preserves R (py_assert b).
Proof. destruct b; intros st; apply R_refl. Qed.

Lemma preserves_modify (g : St → St) :
  (∀ st, R st (g st)) → preserves R (modify g).
Proof. intros H st. apply H. Qed.

Lemma preserves_bind {A B} (m : M A) (k : A → M B) :
  preserves R m → (∀ a, preserves R (k a)) → preserves R (bind m k).
Proof.
  intros Hm Hk st. unfold bind. specialize (Hm st).
  destruct (m st) as [[a|e] st1]; simpl in *; [|exact Hm].
  eapply R_trans; [exact Hm|apply Hk].
Qed.

Hypothesis R_fs : ∀ g path st, R st (set_fs (alter g path (fs st)) st).
Hypothesis R_print : ∀ m st, R st (add_event (EvPrint m) st).
Hypothesis R_result : ∀ x st, R st (set_result x st).

Lemma preserves_file_write (path d : string) :
  preserves R (file_write env path d).
Proof.
  intros st. unfold file_write.
  destruct (io_fault env _ _); simpl; [apply R_refl|apply R_fs].
Qed.

Lemma preserves_file_close (path : string) :
  preserves R (file_close env path).
Proof.
  intros st. unfold file_close.
  destruct (io_fault env _ _); simpl; apply R_fs.
Qed.

Lemma preserves_write_rows (s : string) (c : nat) (out : string)
    (result : gmap string (gmap string (list F))) (bins : list nat) :
  preserves R (write_rows env s c out result bins).
Proof.
  induction bins as [|i bins IH]; simpl.
  - apply preserves_ret.
  - apply preserves_bind; [apply preserves_gets|intros p].
    apply preserves_bind; [apply preserves_lift|intros row].
    apply preserves_bind; [apply preserves_file_write|intros _].
    exact IH.
Qed.

Lemma preserves_write_results (s : string) (c : nat) (out : string)
    (result : gmap string (gmap string (list F))) :
  preserves R (write_results env s c out result).
Proof.
  unfold write_results.
  apply preserves_bind; [apply preserves_modify, R_result|intros _].
  apply preserves_bind; [apply preserves_file_write|intros _].
  apply preserves_bind; [apply preserves_gets|intros p].
  apply preserves_bind; [apply preserves_lift|intros fl].
  apply preserves_bind; [apply preserves_write_rows|intros _].
  apply preserves_file_close.
Qed.

Lemma preserves_handlers (s : string) (c : nat) (e : exn) :
  preserves R (handlers s c e).
Proof.
  destruct e; simpl; try apply preserves_raise.
  - apply preserves_bind; [|intros l].
    { apply preserves_bind; [apply preserves_gets|intros v].
      apply preserves_var. }
    apply preserves_bind; [apply preserves_modify, R_print|intros _].
    apply preserves_ret.
  - apply preserves_bind; [|intros m].
    { apply preserves_bind; [apply preserves_gets|intros v].
      apply preserves_var. }
    apply preserves_bind; [|intros l].
    { apply preserves_bind; [apply preserves_gets|intros v].
      apply preserves_var. }
    apply preserves_bind; [apply preserves_modify, R_print|intros _].
    apply preserves_ret.
Qed.

Hypothesis R_rng : ∀ x st, R st (set_rng x st).
Hypothesis R_mat : ∀ x st, R st (set_mat x st).

Lemma preserves_use_mat (l : polarity) (acc : list (list Trial))
    (w : MatFile Trial) :
  preserves R (use_mat env minTrials l acc w).
Proof.
  unfold use_mat.
  apply preserves_bind; [apply preserves_lift|intros m].
  apply preserves_bind; [apply preserves_modify, R_mat|intros _].
  apply preserves_bind; [apply preserves_lift|intros sr].
  apply preserves_bind; [apply preserves_py_assert|intros _].
  apply preserves_bind; [apply preserves_gets|intros p].
  apply preserves_bind; [apply preserves_py_assert|intros _].
  apply preserves_bind; [|intros perm].
  { intros st. unfold random_permutation.
    destruct (permutation env _ _). simpl. apply R_rng. }
  apply preserves_bind; [apply preserves_modify, R_print|intros _].
  apply preserves_bind; [|intros sub; apply preserves_ret].
  unfold take_trials. destruct (mapM _ _);
    [apply preserves_ret|apply preserves_raise].
Qed.

Hypothesis R_load : ∀ p st, R st (add_event (EvLoad p) st).
Hypothesis R_l : ∀ x st, R st (set_l x st).

Lemma preserves_load_polarity (s : string) (c : nat) (l : polarity)
    (acc : list (list Trial)) :
  preserves R (load s c l acc).
Proof.
  unfold load_polarity.
  apply preserves_bind; [apply preserves_modify, R_l|intros _].
  apply preserves_bind; [|intros w; apply preserves_use_mat].
  apply preserves_bind; [apply preserves_modify, R_load|intros _].
  apply preserves_lift.
Qed.

Hypothesis R_boot : ∀ d p st, R st (add_event (EvBoot d p) st).
Hypothesis R_params : ∀ x st, R st (set_params x st).

Lemma preserves_bootfunc (cd : list (list Trial)) :
  preserves R (bootstrap_bootfunc env cd).
Proof.
  intros st. unfold bootstrap_bootfunc.
  destruct (bootfunc env _ _ _) as [[r p] g]. simpl.
  eapply R_trans; [apply R_boot|].
  eapply R_trans; [apply R_params|apply R_rng].
Qed.

Lemma preserves_try_block (s : string) (c : nat) (out : string) :
  preserves R (try_block env dataDir minTrials s c out).
Proof.
  unfold try_block.
  apply preserves_bind; [apply preserves_load_polarity|intros cd].
  apply preserves_bind; [apply preserves_load_polarity|intros cd'].
  apply preserves_bind; [apply preserves_bootfunc|intros r].
  apply preserves_write_results.
Qed.

End Preserves.

(** ** One pass through the body, step by step *)

Section Body.
Variables (s : string) (c : nat).

Abbreviation path_of l := (join dataDir (loadName s c l)).

Lemma body_opened (out : string) (st : St) :
  _check_filename (dom (fs st)) (saveName s c) saveDir = Some out →
  io_fault env (io_open out) (fs st) = None →
  body s c st
  = match try_block env dataDir minTrials s c out (opened s c out st) with
    | (Ok _, st2) => (Processed, st2)
    | (Raise e, st2) => finish (handlers s c e st2)
    end.
Proof.
  intros Hres Hopen. unfold condition_body. cbn [fs add_event set_saveName].
  rewrite Hres. unfold file_open.
  cbn [fs set_outputFilename set_saveName add_event].
  rewrite Hopen. reflexivity.
Qed.

(** The resolver's loop always exits, so the body never hangs. *)
Lemma body_never_hangs (st : St) : (body s c st).1 ≠ Hang.
Proof.
  unfold condition_body. cbn [fs add_event set_saveName].
  destruct (check_filename_total (dom (fs st)) (saveName s c) saveDir)
    as (out & -> & _).
  destruct (file_open _ _ _) as [[u|e] st1]; [|discriminate].
  destruct (try_block _ _ _ _ _ _ _) as [[u'|e] st2]; [discriminate|].
  destruct e; unfold handlers, bind, gets, var; cbn; try discriminate.
  - destruct (v_l st2); cbn; discriminate.
  - destruct (v_mat st2); cbn; [|discriminate].
    destruct (v_l st2); cbn; discriminate.
Qed.

Lemma body_open_fault (out : string) (e : exn) (st : St) :
  _check_filename (dom (fs st)) (saveName s c) saveDir = Some out →
  io_fault env (io_open out) (fs st) = Some e →
  (body s c st).1 = Crashed e.
Proof.
  intros Hres Hopen. unfold condition_body. cbn [fs add_event set_saveName].
  rewrite Hres. unfold file_open.
  cbn [fs set_outputFilename set_saveName add_event].
  rewrite Hopen. reflexivity.
Qed.

Lemma load_polarity_unfold (l : polarity) (acc : list (list Trial))
    (st : St) :
  load s c l acc st
  = match loadmat env (path_of l) with
    | Ok w =>
        use_mat env minTrials l acc w
          (add_event (EvLoad (path_of l)) (set_l l st))
    | Raise e => (Raise e, add_event (EvLoad (path_of l)) (set_l l st))
    end.
Proof.
  unfold load_polarity, io_loadmat, bind, modify, lift. cbn.
  now destruct (loadmat env _).
Qed.

(** Either assertion fails in the same state. *)
Lemma load_polarity_assert (l : polarity) (acc : list (list Trial))
    (m : list Trial) (sr : Z) (st : St) :
  loadmat env (path_of l) = Ok (mkMatFile (Some m) (Some sr)) →
  (Z.of_nat (length m) ≤ minTrials)%Z ∨ sr ≠ Fs (params st) →
  load s c l acc st = (Raise AssertionError, loaded dataDir s c l m st).
Proof.
  intros Hload Hbad. unfold load_polarity, use_mat, io_loadmat, bind, modify, lift.
  cbn. rewrite Hload. cbn.
  destruct (Z.ltb_spec minTrials (Z.of_nat (length m))) as [Hlt|Hge].
  - cbn. destruct (Z.eqb_spec sr (Fs (params st))) as [Heq|Hne].
    + destruct Hbad; [lia|contradiction].
    + reflexivity.
  - reflexivity.
Qed.

Lemma load_polarity_missing (l : polarity) (acc : list (list Trial))
    (e : exn) (st : St) :
  loadmat env (path_of l) = Raise e →
  load s c l acc st
  = (Raise e, add_event (EvLoad (path_of l)) (set_l l st)).
Proof.
  intros Hload. unfold load_polarity, use_mat, io_loadmat, bind, modify, lift.
  cbn. rewrite Hload. reflexivity.
Qed.

Lemma load_polarity_ok (l : polarity) (acc : list (list Trial))
    (m : list Trial) (sr : Z) (perm : list nat) (g : RNG)
    (sub : list Trial) (st : St) :
  loadmat env (path_of l) = Ok (mkMatFile (Some m) (Some sr)) →
  (minTrials < Z.of_nat (length m))%Z →
  sr = Fs (params st) →
  permutation env (length m) (rng st) = (perm, g) →
  mapM (λ j, m !! j) (slice_to minTrials perm) = Some sub →
  load s c l acc st
  = (Ok (acc ++ [sub]),
     add_event (EvPrint (MsgUsing l (slice_to minTrials perm)))
       (set_rng g (loaded dataDir s c l m st))).
Proof.
  intros Hload Hlt -> Hperm Hsub.
  unfold load_polarity, use_mat, io_loadmat, bind, modify, lift. cbn.
  rewrite Hload. cbn.
  apply Z.ltb_lt in Hlt. rewrite Hlt. cbn. rewrite Z.eqb_refl. cbn.
  unfold random_permutation. cbn. rewrite Hperm. cbn.
  unfold take_trials. rewrite Hsub. reflexivity.
Qed.

(** An exception raised while a file is loaded leaves the [try]
    block as it is. *)
Lemma try_block_raise_in_load (out : string) (l : polarity)
    (acc : list (list Trial)) (e : exn) (st1 st2 st3 : St) :
  reaches env dataDir minTrials s c l st1 st2 acc →
  load s c l acc st2 = (Raise e, st3) →
  try_block env dataDir minTrials s c out st1 = (Raise e, st3).
Proof.
  intros Hreach Hraise. unfold try_block. destruct l; simpl in Hreach.
  - destruct Hreach as [-> ->]. unfold bind at 1. now rewrite Hraise.
  - unfold bind at 1. rewrite Hreach. unfold bind at 1. now rewrite Hraise.
Qed.

Lemma handlers_assertion (l : polarity) (m : list Trial) (st : St) :
  v_l st = Some l → v_mat st = Some m →
  handlers s c AssertionError st
  = (Ok Skipped,
     add_event (EvPrint (MsgOnlyTrials (length m) (loadName s c l) c)) st).
Proof.
  intros Hl Hm. unfold handlers, bind, gets, var, print, modify, ret.
  now rewrite Hm, Hl.
Qed.

Lemma handlers_ioerror (l : polarity) (st : St) :
  v_l st = Some l →
  handlers s c IOError st
  = (Ok Skipped,
     add_event (EvPrint (MsgCannotFind (loadName s c l) c)) st).
Proof.
  intros Hl. unfold handlers, bind, gets, var, print, modify, ret.
  now rewrite Hl.
Qed.

(** A failed assertion on a loaded file, whichever of the two it is:
    the condition is skipped with the trial-count message. *)
Lemma body_assert_skip (out : string) (l : polarity)
    (acc : list (list Trial)) (m : list Trial) (sr : Z) (st st2 : St) :
  _check_filename (dom (fs st)) (saveName s c) saveDir = Some out →
  io_fault env (io_open out) (fs st) = None →
  reaches env dataDir minTrials s c l (opened s c out st) st2 acc →
  loadmat env (path_of l) = Ok (mkMatFile (Some m) (Some sr)) →
  (Z.of_nat (length m) ≤ minTrials)%Z ∨ sr ≠ Fs (params st2) →
  body s c st
  = (Skipped,
     add_event (EvPrint (MsgOnlyTrials (length m) (loadName s c l) c))
       (loaded dataDir s c l m st2)).
Proof.
  intros Hres Hopen Hreach Hload Hbad.
  rewrite (body_opened out) by assumption.
  rewrite (try_block_raise_in_load out l acc AssertionError _ st2
             (loaded dataDir s c l m st2)); [|assumption|].
  - now rewrite (handlers_assertion l m).
  - now apply (load_polarity_assert l acc m sr).
Qed.

Lemma for_conditions_step (cs : list nat) (o : outcome) (st st' : St) :
  body s c st = (o, st') → o = Processed ∨ o = Skipped →
  for_conditions env dataDir saveDir minTrials s (c :: cs) st
  = for_conditions env dataDir saveDir minTrials s cs st'.
Proof.
  intros Hb Ho. cbn [for_conditions]. rewrite Hb.
  destruct Ho as [-> | ->]; reflexivity.
Qed.

(** The files are only read, never touched, while they are loaded. *)
Lemma reaches_fs (l : polarity) (acc : list (list Trial))
    (st1 st2 : St) :
  reaches env dataDir minTrials s c l st1 st2 acc → fs st2 = fs st1.
Proof.
  destruct l; simpl.
  - now intros [-> _].
  - intros H.
    pose proof (preserves_load_polarity (λ a b, fs b = fs a)
                  (λ _, eq_refl) (λ a b c0 H1 H2, eq_trans H2 H1)
                  (λ _ _, eq_refl) (λ _ _, eq_refl) (λ _ _, eq_refl)
                  (λ _ _, eq_refl) (λ _ _, eq_refl)
                  s c pol_positive [] st1) as Hp.
    simpl in Hp. now rewrite H in Hp.
Qed.

(** C2: a loaded matrix with exactly [minTrials] trials fails
    [assert mat.shape[1] > minTrials]: the comparison is strict. The
    condition is skipped with the trial-count message, and the loop
    goes on with the next condition. *)
Theorem exactly_min_trials_is_skipped (out : string) (l : polarity)
    (acc : list (list Trial)) (m : list Trial) (sr : Z) (cs : list nat)
    (st st2 : St) :
  _check_filename (dom (fs st)) (saveName s c) saveDir = Some out →
  io_fault env (io_open out) (fs st) = None →
  reaches env dataDir minTrials s c l (opened s c out st) st2 acc →
  loadmat env (path_of l) = Ok (mkMatFile (Some m) (Some sr)) →
  Z.of_nat (length m) = minTrials →
  let st' :=
    add_event (EvPrint (MsgOnlyTrials (length m) (loadName s c l) c))
      (loaded dataDir s c l m st2) in
  (minTrials <? Z.of_nat (length m))%Z = false
  ∧ load s c l acc st2
    = (Raise AssertionError, loaded dataDir s c l m st2)
  ∧ body s c st = (Skipped, st')
  ∧ for_conditions env dataDir saveDir minTrials s (c :: cs) st
    = for_conditions env dataDir saveDir minTrials s cs st'.
Proof.
  intros Hres Hopen Hreach Hload Hlen st'.
  assert (Hbody : body s c st = (Skipped, st')).
  { apply (body_assert_skip out l acc m sr); try assumption. left. lia. }
  split; [apply Z.ltb_ge; lia|]. split; [|split].
  - apply (load_polarity_assert l acc m sr); [assumption|left; lia].
  - exact Hbody.
  - apply (for_conditions_step cs Skipped); [exact Hbody|now right].
Qed.

(** C3: a loaded file whose sample rate is not [params['Fs']] makes
    the condition a skipped one. Its output file, opened before any
    input is read, is there and holds no row; the loop goes on with
    the next condition. *)
Theorem sample_rate_mismatch_is_skipped (out : string) (l : polarity)
    (acc : list (list Trial)) (m : list Trial) (sr : Z) (cs : list nat)
    (st st2 : St) :
  _check_filename (dom (fs st)) (saveName s c) saveDir = Some out →
  io_fault env (io_open out) (fs st) = None →
  reaches env dataDir minTrials s c l (opened s c out st) st2 acc →
  loadmat env (path_of l) = Ok (mkMatFile (Some m) (Some sr)) →
  sr ≠ Fs (params st2) →
  ∃ st', body s c st = (Skipped, st')
         ∧ fs st !! out = None
         ∧ fs st' !! out = Some (mkOFile [] false)
         ∧ for_conditions env dataDir saveDir minTrials s (c :: cs) st
           = for_conditions env dataDir saveDir minTrials s cs st'.
Proof.
  intros Hres Hopen Hreach Hload Hsr.
  eexists. split; [|split; [|split]].
  - apply (body_assert_skip out l acc m sr st st2); try assumption.
    now right.
  - destruct (check_filename_total (dom (fs st)) (saveName s c) saveDir)
      as (r & Hr & Hfree).
    rewrite Hres in Hr. injection Hr as <-.
    now apply not_elem_of_dom in Hfree.
  - cbn [fs add_event loaded set_mat set_l].
    rewrite (reaches_fs l acc _ _ Hreach).
    cbn [fs opened set_fs]. apply lookup_insert_eq.
  - apply (for_conditions_step cs Skipped); [|now right].
    apply (body_assert_skip out l acc m sr st st2); try assumption.
    now right.
Qed.

(** C9: when [assert sampleRateFromFile == params['Fs']] is the
    assertion that fails, what is printed is the trial-count message
    with [mat.shape[1]] in it; nothing in the output names the sample
    rate. *)
Theorem sample_rate_mismatch_reported_as_trial_count (out : string)
    (l : polarity) (acc : list (list Trial)) (m : list Trial) (sr : Z)
    (st st2 : St) :
  _check_filename (dom (fs st)) (saveName s c) saveDir = Some out →
  io_fault env (io_open out) (fs st) = None →
  reaches env dataDir minTrials s c l (opened s c out st) st2 acc →
  loadmat env (path_of l) = Ok (mkMatFile (Some m) (Some sr)) →
  (minTrials < Z.of_nat (length m))%Z →
  sr ≠ Fs (params st2) →
  ∃ st', body s c st = (Skipped, st')
         ∧ trace st'
           = trace st2
               ++ [EvLoad (path_of l);
                   EvPrint (MsgOnlyTrials (length m) (loadName s c l) c)]
         ∧ render env (MsgOnlyTrials (length m) (loadName s c l) c)
           = NL +:+ "Only " +:+ str_nat (length m)
                +:+ " trials detected in " +:+ loadName s c l
                +:+ ", skipping condition " +:+ str_nat c +:+ "..."
                +:+ NL.
Proof.
  intros Hres Hopen Hreach Hload Hlt Hsr.
  eexists. split; [|split].
  - apply (body_assert_skip out l acc m sr st st2); try assumption.
    now right.
  - cbn [trace add_event loaded set_mat set_l].
    now rewrite <- app_assoc.
  - reflexivity.
Qed.

(** ** What the handlers catch *)

Lemma finish_snd (r : Res outcome * St) : (finish r).2 = r.2.
Proof. destruct r as [[o|e] st]; reflexivity. Qed.

(** [l] is bound as soon as the [try] block has run its first line. *)
Lemma try_block_binds_l (out : string) (st : St) :
  is_Some (v_l (try_block env dataDir minTrials s c out st).2).
Proof.
  assert (Hidem : try_block env dataDir minTrials s c out st
                  = try_block env dataDir minTrials s c out
                      (set_l pol_positive st)) by reflexivity.
  rewrite Hidem.
  apply (preserves_try_block (λ a b, is_Some (v_l a) → is_Some (v_l b)));
    intros; cbn; eauto.
Qed.

(** The variables [saveName] and [outputFilename] keep the values the
    head of the loop body gave them. *)
Lemma body_saveName (st : St) :
  v_saveName (body s c st).2 = Some (saveName s c).
Proof.
  unfold condition_body.
  destruct (_check_filename _ _ _) as [out|]; [|reflexivity].
  unfold file_open. destruct (io_fault env _ _); [reflexivity|].
  match goal with
  | |- context [try_block ?e ?d ?mt ?s0 ?c0 ?o ?x] =>
      pose proof (preserves_try_block
                    (λ a b, v_saveName b = v_saveName a)
                    (λ _, eq_refl) (λ a b d H1 H2, eq_trans H2 H1)
                    (λ _ _ _, eq_refl) (λ _ _, eq_refl) (λ _ _, eq_refl)
                    (λ _ _, eq_refl) (λ _ _, eq_refl) (λ _ _, eq_refl)
                    (λ _ _, eq_refl) (λ _ _ _, eq_refl) (λ _ _, eq_refl)
                    s0 c0 o x) as Htry;
      destruct (try_block e d mt s0 c0 o x) as [[u|e'] st2]
  end; simpl in Htry.
  - exact Htry.
  - rewrite finish_snd.
    pose proof (preserves_handlers (λ a b, v_saveName b = v_saveName a)
                  (λ _, eq_refl) (λ a b d H1 H2, eq_trans H2 H1)
                  (λ _ _, eq_refl) s c e' st2) as Hh.
    simpl in Hh. now rewrite Hh.
Qed.

(** A skipped condition has its skip message last in the trace, and
    the message carries the loop's [c]. *)
Lemma skipped_message (st st' : St) :
  body s c st = (Skipped, st') →
  ∃ file,
    last (trace st') = Some (EvPrint (MsgCannotFind file c))
    ∨ ∃ n, last (trace st') = Some (EvPrint (MsgOnlyTrials n file c)).
Proof.
  unfold condition_body.
  destruct (_check_filename _ _ _) as [out|]; [|discriminate].
  destruct (file_open _ _ _) as [[u|e0] st1]; [|discriminate].
  destruct (try_block _ _ _ _ _ _ _) as [[u'|e] st2]; [discriminate|].
  destruct e; try discriminate; unfold handlers, bind, gets, var.
  - destruct (v_l st2) as [l|]; [|discriminate]. cbn.
    intros [= <-]. exists (loadName s c l). left.
    cbn. apply last_snoc.
  - destruct (v_mat st2) as [m|]; [|discriminate]. cbn.
    destruct (v_l st2) as [l|]; [|discriminate]. cbn.
    intros [= <-]. exists (loadName s c l). right. exists (length m).
    cbn. apply last_snoc.
Qed.


(** C8, as the code has it: the condition in a skip message is the
    loop's own [c], and so is the one in the name of the output file;
    no other counter takes part. *)
Theorem skip_message_and_filename_agree (st st' : St) :
  body s c st = (Skipped, st') →
  skip_condition (last (trace st')) = Some c
  ∧ v_saveName st' = Some (s +:+ "_condition_" +:+ str_nat c +:+ ".csv").
Proof.
  intros Hb. split.
  - destruct (skipped_message st st' Hb) as [file [H|[n H]]];
      rewrite H; reflexivity.
  - pose proof (body_saveName st) as Hs. now rewrite Hb in Hs.
Qed.

(** ** Subsampling and the call to the estimator *)

(** What [permutedTrials[0:minTrials]] is when [permutedTrials] is a
    permutation of the trial indices and [0 <= minTrials < n]. *)
Lemma subsample_spec (m : list Trial) (perm : list nat) :
  Permutation perm (seq 0 (length m)) →
  (0 ≤ minTrials < Z.of_nat (length m))%Z →
  slice_to minTrials perm = take (Z.to_nat minTrials) perm
  ∧ length (slice_to minTrials perm) = Z.to_nat minTrials
  ∧ NoDup (slice_to minTrials perm)
  ∧ Forall (λ j, j < length m) (slice_to minTrials perm)
  ∧ ∃ sub, mapM (λ j, m !! j) (slice_to minTrials perm) = Some sub.
Proof.
  intros Hperm Hmin.
  assert (Hlen : length perm = length m).
  { rewrite (Permutation_length Hperm). apply length_seq. }
  assert (Hslice : slice_to minTrials perm = take (Z.to_nat minTrials) perm).
  { unfold slice_to.
    destruct (Z.ltb_spec minTrials 0) as [?|_]; [lia|].
    rewrite Hlen. now rewrite Z.min_l by lia. }
  assert (Hrange : Forall (λ j, j < length m) perm).
  { rewrite Hperm. apply Forall_forall. intros j Hj.
    apply elem_of_seq in Hj. lia. }
  rewrite Hslice. split; [reflexivity|]. split; [|split; [|split]].
  - rewrite length_take. lia.
  - apply (sublist_NoDup _ perm); [|apply sublist_take].
    rewrite Hperm. apply NoDup_seq.
  - now apply Forall_take.
  - apply mapM_is_Some. apply Forall_take.
    eapply Forall_impl; [exact Hrange|].
    intros j Hj. now apply lookup_lt_is_Some.
Qed.

Lemma estimator_calls_print (m : message) (st : St) :
  estimator_calls (trace (add_event (EvPrint m) st))
  = estimator_calls (trace st).
Proof.
  cbn [trace add_event]. unfold estimator_calls.
  rewrite omap_app. cbn. apply app_nil_r.
Qed.

Lemma estimator_calls_load (p : string) (st : St) :
  estimator_calls (trace (add_event (EvLoad p) st))
  = estimator_calls (trace st).
Proof.
  cbn [trace add_event]. unfold estimator_calls.
  rewrite omap_app. cbn. apply app_nil_r.
Qed.

(** Nothing after the call to the estimator calls it again. *)
Lemma no_call_after_boot (out : string)
    (r : Res (gmap string (gmap string (list F)))) (st : St) :
  estimator_calls
    (trace (match r with
            | Ok result =>
                match write_results env s c out result st with
                | (Ok _, st2) => (Processed, st2)
                | (Raise e, st2) => finish (handlers s c e st2)
                end
            | Raise e => finish (handlers s c e st)
            end).2)
  = estimator_calls (trace st).
Proof.
  set (R := λ a b : St,
         estimator_calls (trace b) = estimator_calls (trace a)).
  assert (Hh : ∀ e st0, R st0 (finish (handlers s c e st0)).2).
  { intros e st0. rewrite finish_snd.
    apply (preserves_handlers R); unfold R; intros.
    - reflexivity.
    - etransitivity; eassumption.
    - apply estimator_calls_print. }
  destruct r as [result|e]; [|apply Hh].
  pose proof (preserves_write_results R) as Hw.
  specialize (Hw (λ _, eq_refl) (λ a b d H1 H2, eq_trans H2 H1)
                (λ _ _ _, eq_refl) (λ _ _, eq_refl) s c out result st).
  destruct (write_results env s c out result st) as [[u|e] st2];
    simpl in Hw; [exact Hw|].
  unfold R in *. rewrite <- Hw. apply Hh.
Qed.

(** The body once both files are loaded: the call to the estimator,
    then the writing of the results or a handler. *)
Lemma body_after_loads (out : string) (cd1 cd2 : list (list Trial))
    (st sa sb : St) :
  load s c pol_positive [] (opened s c out st) = (Ok cd1, sa) →
  load s c pol_negative cd1 sa = (Ok cd2, sb) →
  _check_filename (dom (fs st)) (saveName s c) saveDir = Some out →
  io_fault env (io_open out) (fs st) = None →
  body s c st
  = let '(r, p, g) := bootfunc env cd2 (params sb) (rng sb) in
    match r with
    | Ok result =>
        match write_results env s c out result
                (set_rng g (set_params p
                              (add_event (EvBoot cd2 (params sb)) sb)))
        with
        | (Ok _, st2) => (Processed, st2)
        | (Raise e, st2) => finish (handlers s c e st2)
        end
    | Raise e =>
        finish (handlers s c e
                  (set_rng g (set_params p
                                (add_event (EvBoot cd2 (params sb)) sb))))
    end.
Proof.
  intros H1 H2 Hres Hopen. rewrite (body_opened out) by assumption.
  unfold try_block, bind. rewrite H1. cbv beta iota. rewrite H2.
  cbv beta iota. unfold bootstrap_bootfunc.
  destruct (bootfunc env _ _ _) as [[r p] g]. now destruct r.
Qed.

(** C5, as the code has it: when both files load with a trial count
    above [minTrials] and the configured sample rate, and [minTrials]
    is not negative, each polarity's [useTrials] is the first
    [minTrials] entries of the permutation drawn for it (so
    [minTrials] distinct indices of its matrix), the second draw
    continuing from the generator state the first one left, and
    [bootfunc] is called once, with the two subsampled matrices in the
    order positive, negative and with [params]. *)
Theorem subsample_and_single_estimator_call (out : string)
    (m1 m2 : list Trial) (sr1 sr2 : Z) (st : St) :
  _check_filename (dom (fs st)) (saveName s c) saveDir = Some out →
  io_fault env (io_open out) (fs st) = None →
  (∀ n g, Permutation (permutation env n g).1 (seq 0 n)) →
  loadmat env (path_of pol_positive) = Ok (mkMatFile (Some m1) (Some sr1)) →
  loadmat env (path_of pol_negative) = Ok (mkMatFile (Some m2) (Some sr2)) →
  (0 ≤ minTrials)%Z →
  (minTrials < Z.of_nat (length m1))%Z →
  (minTrials < Z.of_nat (length m2))%Z →
  sr1 = Fs (params st) → sr2 = Fs (params st) →
  ∃ use1 use2 sub1 sub2,
    use1 = take (Z.to_nat minTrials)
             (permutation env (length m1) (rng st)).1
    ∧ use2 = take (Z.to_nat minTrials)
               (permutation env (length m2)
                  (permutation env (length m1) (rng st)).2).1
    ∧ (length use1 = Z.to_nat minTrials ∧ NoDup use1
       ∧ Forall (λ j, j < length m1) use1
       ∧ Forall2 (λ j t, m1 !! j = Some t) use1 sub1)
    ∧ (length use2 = Z.to_nat minTrials ∧ NoDup use2
       ∧ Forall (λ j, j < length m2) use2
       ∧ Forall2 (λ j t, m2 !! j = Some t) use2 sub2)
    ∧ estimator_calls (trace (body s c st).2)
      = estimator_calls (trace st) ++ [([sub1; sub2], params st)].
Proof.
  intros Hres Hopen Hperm Hl1 Hl2 Hmin Hlt1 Hlt2 Hsr1 Hsr2.
  destruct (permutation env (length m1) (rng st)) as [perm1 g1] eqn:Hp1.
  cbn [fst snd].
  destruct (permutation env (length m2) g1) as [perm2 g2] eqn:Hp2.
  cbn [fst snd].
  destruct (subsample_spec m1 perm1) as (Hs1 & Hn1 & Hd1 & Hr1 & sub1 & Hm1).
  { specialize (Hperm (length m1) (rng st)). now rewrite Hp1 in Hperm. }
  { lia. }
  destruct (subsample_spec m2 perm2) as (Hs2 & Hn2 & Hd2 & Hr2 & sub2 & Hm2).
  { specialize (Hperm (length m2) g1). now rewrite Hp2 in Hperm. }
  { lia. }
  exists (slice_to minTrials perm1), (slice_to minTrials perm2), sub1, sub2.
  split; [exact Hs1|]. split; [exact Hs2|].
  split; [repeat split; try assumption; now apply mapM_Some|].
  split; [repeat split; try assumption; now apply mapM_Some|].
  set (st1 := opened s c out st).
  pose proof (load_polarity_ok pol_positive [] m1 sr1 perm1 g1 sub1 st1
                Hl1 Hlt1 Hsr1 Hp1 Hm1) as H1.
  set (sa := add_event (EvPrint (MsgUsing pol_positive
                                   (slice_to minTrials perm1)))
               (set_rng g1 (loaded dataDir s c pol_positive m1 st1))) in *.
  pose proof (load_polarity_ok pol_negative ([] ++ [sub1]) m2 sr2 perm2 g2
                sub2 sa Hl2 Hlt2 Hsr2 Hp2 Hm2) as H2.
  rewrite (body_after_loads out _ _ _ _ _ H1 H2 Hres Hopen).
  destruct (bootfunc env _ _ _) as [[r p] g].
  rewrite no_call_after_boot.
  unfold sa, st1, loaded, opened, estimator_calls.
  cbn [trace params add_event set_rng set_params set_mat set_l set_fs
         set_saveName set_outputFilename].
  rewrite !omap_app. cbn. now rewrite !app_nil_r.
Qed.

(** ** The rows of the output file *)

Lemma data_row_inv (p : Params F)
    (result : gmap string (gmap string (list F))) (i : nat)
    (row : string) :
  data_row env s c p result i = Ok row →
  ∃ fl fq pm pv sm sv npm npv nsm nsv,
    f p = Some fl ∧ fl !! i = Some fq
    ∧ stat result "mtcpcaPLV_normalPhase" "bootMean" i = Ok pm
    ∧ stat result "mtcpcaPLV_normalPhase" "bootVariance" i = Ok pv
    ∧ stat result "mtcpcaSpectrum_normalPhase" "bootMean" i = Ok sm
    ∧ stat result "mtcpcaSpectrum_normalPhase" "bootVariance" i = Ok sv
    ∧ stat result "mtcpcaPLV_phaseFlipHalfTrials" "bootMean" i = Ok npm
    ∧ stat result "mtcpcaPLV_phaseFlipHalfTrials" "bootVariance" i = Ok npv
    ∧ stat result "mtcpcaSpectrum_phaseFlipHalfTrials" "bootMean" i
      = Ok nsm
    ∧ stat result "mtcpcaSpectrum_phaseFlipHalfTrials" "bootVariance" i
      = Ok nsv
    ∧ row = printStr s (str_nat c) (str_Z (nDraws p)) (str_Z (nPerDraw p))
              (str_float env fq)
              (str_float env pm) (str_float env pv)
              (str_float env sm) (str_float env sv)
              (str_float env npm) (str_float env npv)
              (str_float env nsm) (str_float env nsv).
Proof.
  unfold data_row. intros H.
  destruct (f p) as [fl|] eqn:Hf; [|discriminate].
  cbn [getitem rbind] in H. unfold getindex in H at 1.
  destruct (fl !! i) as [fq|] eqn:Hfq; [|discriminate].
  cbn [rbind] in H.
  repeat match type of H with
         | rbind ?r _ = _ =>
             let x := fresh "x" in
             destruct r as [x|] eqn:?; [|discriminate]; cbn [rbind] in H
         end.
  injection H as <-. eexists fl, fq, _, _, _, _, _, _, _, _.
  repeat split; try eassumption; reflexivity.
Qed.

Lemma write_rows_ok (out : string)
    (result : gmap string (gmap string (list F))) (bins : list nat)
    (st st2 : St) (u : unit) (o : OFile) :
  write_rows env s c out result bins st = (Ok u, st2) →
  fs st !! out = Some o →
  ∃ rws,
    Forall2 (λ i row, data_row env s c (params st) result i = Ok row)
      bins rws
    ∧ fs st2 !! out = Some (mkOFile (rows o ++ rws) (closed o)).
Proof.
  revert st o. induction bins as [|i bins IH]; intros st o Hw Ho.
  - cbn in Hw. injection Hw as _ <-. exists []. split; [constructor|].
    rewrite app_nil_r. now destruct o.
  - cbn [write_rows] in Hw. unfold bind, gets, lift in Hw.
    destruct (data_row env s c (params st) result i) as [row|] eqn:Hrow;
      [|discriminate].
    unfold file_write in Hw at 1.
    destruct (io_fault env _ _); [discriminate|].
    apply (IH _ (mkOFile (rows o ++ [row]) (closed o))) in Hw.
    + destruct Hw as (rws & Hall & Hfs). exists (row :: rws).
      split; [constructor; assumption|].
      cbn [rows closed] in Hfs. now rewrite <- app_assoc in Hfs.
    + cbn [fs set_fs]. rewrite lookup_alter_eq. now rewrite Ho.
Qed.

Lemma handlers_never_process (e : exn) (st : St) :
  (finish (handlers s c e st)).1 ≠ Processed.
Proof.
  destruct e; unfold handlers, bind, gets, var; cbn; try discriminate.
  - destruct (v_l st); cbn; discriminate.
  - destruct (v_mat st); cbn; [|discriminate].
    destruct (v_l st); cbn; discriminate.
Qed.

Lemma load_polarity_keeps_fs (l : polarity) (acc : list (list Trial))
    (st : St) :
  fs (load s c l acc st).2 = fs st.
Proof.
  apply (preserves_load_polarity (λ a b, fs b = fs a)); intros;
    try reflexivity.
  etransitivity; eassumption.
Qed.

Lemma stat_inv (result : gmap string (gmap string (list F)))
    (variant statistic : string) (i : nat) (x : F) :
  stat result variant statistic i = Ok x →
  (result !! variant ≫= (.!! statistic)) ≫= (.!! i) = Some x.
Proof.
  unfold stat, getindex.
  destruct (result !! variant) as [d|]; [|discriminate]. cbn.
  destruct (d !! statistic) as [v|]; [|discriminate]. cbn.
  destruct (v !! i); [|discriminate]. now intros [= ->].
Qed.

(** ** The lines of the output file *)

Lemma count_char_app (a : ascii) (x y : string) :
  CsvText.count_char a (x +:+ y)
  = CsvText.count_char a x + CsvText.count_char a y.
Proof.
  induction x as [|b x IH]; [reflexivity|].
  rewrite app_cons. cbn [CsvText.count_char]. rewrite IH. lia.
Qed.

Lemma count_newline_uint (d : Decimal.uint) :
  CsvText.count_char "010" (NilEmpty.string_of_uint d) = 0.
Proof. induction d; cbn; assumption || reflexivity. Qed.

Lemma count_newline_str_nat (n : nat) :
  CsvText.count_char "010" (str_nat n) = 0.
Proof. apply count_newline_uint. Qed.

Lemma count_newline_str_Z (z : Z) :
  CsvText.count_char "010" (str_Z z) = 0.
Proof.
  unfold str_Z. destruct (Z.to_int z) as [d|d]; cbn;
    apply count_newline_uint.
Qed.

(** A row holds one newline, its last character, when neither the
    subject nor a rendered number holds one. *)
Lemma data_row_one_line (p : Params F)
    (result : gmap string (gmap string (list F))) (i : nat)
    (row : string) :
  CsvText.count_char "010" s = 0 →
  (∀ x, CsvText.count_char "010" (str_float env x) = 0) →
  data_row env s c p result i = Ok row →
  CsvText.count_char "010" row = 1.
Proof.
  intros Hs Hfl Hrow.
  destruct (data_row_inv _ _ _ _ Hrow)
    as (fl' & fq & pm & pv & sm & sv & npm & npv & nsm & nsv & _ & _ & _
        & _ & _ & _ & _ & _ & _ & _ & ->).
  unfold printStr. rewrite !count_char_app.
  rewrite Hs, !Hfl, count_newline_str_nat, !count_newline_str_Z.
  reflexivity.
Qed.

Lemma count_newline_rows (rws : list string) :
  Forall (λ row, CsvText.count_char "010" row = 1) rws →
  CsvText.count_char "010" (foldr String.append "" rws) = length rws.
Proof.
  induction 1 as [|row rws Hrow _ IH]; [reflexivity|].
  cbn [foldr length].
  change (String.append row ?x) with (row +:+ x).
  rewrite count_char_app, Hrow, IH. reflexivity.
Qed.

(** C6: when the body reaches the end of the [try] block, the output
    file holds the header row and then one row for each entry of
    [params['f']] as the estimator left it, in order; a row is the
    subject, the condition, [nDraws], [nPerDraw], the frequency and
    the eight statistics of [result] at that index, separated by
    commas and ended by a newline; the file is closed; and when
    neither the subject nor a rendered number holds a newline, the
    text of the file has one line for the header and one for each
    frequency. *)
Theorem processed_condition_writes_csv (st st' : St) :
  body s c st = (Processed, st') →
  ∃ out result fl dataRows,
    _check_filename (dom (fs st)) (saveName s c) saveDir = Some out
    ∧ (∃ cd p0 g0,
         bootfunc env cd p0 g0 = (Ok result, params st', rng st'))
    ∧ f (params st') = Some fl
    ∧ fs st' !! out = Some (mkOFile (header_row :: dataRows) true)
    ∧ length dataRows = length fl
    ∧ (∀ i row, dataRows !! i = Some row →
         ∃ fq pm pv sm sv npm npv nsm nsv,
           fl !! i = Some fq
           ∧ (result !! "mtcpcaPLV_normalPhase" ≫= (.!! "bootMean"))
               ≫= (.!! i) = Some pm
           ∧ (result !! "mtcpcaPLV_normalPhase" ≫= (.!! "bootVariance"))
               ≫= (.!! i) = Some pv
           ∧ (result !! "mtcpcaSpectrum_normalPhase" ≫= (.!! "bootMean"))
               ≫= (.!! i) = Some sm
           ∧ (result !! "mtcpcaSpectrum_normalPhase"
               ≫= (.!! "bootVariance")) ≫= (.!! i) = Some sv
           ∧ (result !! "mtcpcaPLV_phaseFlipHalfTrials"
               ≫= (.!! "bootMean")) ≫= (.!! i) = Some npm
           ∧ (result !! "mtcpcaPLV_phaseFlipHalfTrials"
               ≫= (.!! "bootVariance")) ≫= (.!! i) = Some npv
           ∧ (result !! "mtcpcaSpectrum_phaseFlipHalfTrials"
               ≫= (.!! "bootMean")) ≫= (.!! i) = Some nsm
           ∧ (result !! "mtcpcaSpectrum_phaseFlipHalfTrials"
               ≫= (.!! "bootVariance")) ≫= (.!! i) = Some nsv
           ∧ row = s +:+ "," +:+ str_nat c
                     +:+ "," +:+ str_Z (nDraws (params st'))
                     +:+ "," +:+ str_Z (nPerDraw (params st'))
                     +:+ "," +:+ str_float env fq
                     +:+ "," +:+ str_float env pm
                     +:+ "," +:+ str_float env pv
                     +:+ "," +:+ str_float env sm
                     +:+ "," +:+ str_float env sv
                     +:+ "," +:+ str_float env npm
                     +:+ "," +:+ str_float env npv
                     +:+ "," +:+ str_float env nsm
                     +:+ "," +:+ str_float env nsv
                     +:+ String "010" "")
    ∧ header_row
      = "Subject Name,Condition,Number of Draws,Trials per Draw,Frequency,PLV**2: bootstrapped mean,PLV**2: bootstrapped variance,Spectrum: bootstrapped mean,Spectrum: bootstrapped variance,Noise floor PLV**2: bootstrapped mean,Noise floor PLV**2: bootstrapped variance,Noise floor Spectrum: bootstrapped mean,Noise floor Spectrum: bootstrapped variance"
          +:+ String "010" ""
    ∧ (CsvText.count_char "010" s = 0 →
       (∀ x, CsvText.count_char "010" (str_float env x) = 0) →
       CsvText.count_char "010"
         (CsvText.file_text (mkOFile (header_row :: dataRows) true))
       = 1 + length fl).
Proof.
  intros Hb.
  destruct (_check_filename (dom (fs st)) (saveName s c) saveDir)
    as [out|] eqn:Hres.
  2: { unfold condition_body in Hb. cbn [fs add_event set_saveName] in Hb.
       rewrite Hres in Hb. discriminate. }
  destruct (io_fault env (io_open out) (fs st)) as [e|] eqn:Hopen.
  { pose proof (body_open_fault out e st Hres Hopen) as Hc.
    rewrite Hb in Hc. discriminate. }
  rewrite (body_opened out) in Hb by assumption.
  set (st1 := opened s c out st) in *.
  destruct (try_block env dataDir minTrials s c out st1)
    as [[u|e] st2] eqn:Htry.
  2: { pose proof (handlers_never_process e st2) as Hn.
       rewrite Hb in Hn. now contradiction Hn. }
  injection Hb as ->.
  unfold try_block, bind in Htry.
  pose proof (load_polarity_keeps_fs pol_positive [] st1) as Hfa.
  destruct (load s c pol_positive [] st1) as [[cd1|e] sa];
    [|discriminate].
  pose proof (load_polarity_keeps_fs pol_negative cd1 sa) as Hfb.
  destruct (load s c pol_negative cd1 sa) as [[cd2|e] sb];
    [|discriminate].
  cbn [snd] in Hfa, Hfb.
  unfold bootstrap_bootfunc in Htry.
  destruct (bootfunc env cd2 (params sb) (rng sb)) as [[r p] g] eqn:Hboot.
  destruct r as [result|e]; [|discriminate].
  unfold write_results, bind, modify, gets, lift in Htry.
  unfold file_write in Htry at 1.
  cbn [fs set_rng set_params set_result add_event] in Htry.
  destruct (io_fault env (io_write out header_row) (fs sb));
    [discriminate|].
  cbn [params set_fs set_rng set_params set_result add_event] in Htry.
  destruct (f p) as [fl|] eqn:Hf; [|discriminate].
  cbn [getitem] in Htry.
  match type of Htry with
  | context [write_rows ?e ?s0 ?c0 ?o ?r ?bs ?x] =>
      set (sw := x) in *;
      pose proof (preserves_write_rows (λ a b, params b = params a)
                    (λ _, eq_refl) (λ a b d H1 H2, eq_trans H2 H1)
                    (λ _ _ _, eq_refl) s0 c0 o r bs sw) as Hkp;
      pose proof (preserves_write_rows (λ a b, rng b = rng a)
                    (λ _, eq_refl) (λ a b d H1 H2, eq_trans H2 H1)
                    (λ _ _ _, eq_refl) s0 c0 o r bs sw) as Hkg;
      destruct (write_rows e s0 c0 o r bs sw) as [[u'|e'] sd] eqn:Hrows
  end; [|discriminate].
  cbn [snd] in Hkp, Hkg.
  unfold file_close in Htry.
  destruct (io_fault env (io_close out) (fs sd)); [discriminate|].
  injection Htry as _ <-.
  destruct (write_rows_ok out result _ sw sd u'
              (mkOFile ([] ++ [header_row]) false) Hrows)
    as (rws & Hall & Hfs).
  { unfold sw. cbn [fs set_fs]. rewrite lookup_alter_eq, Hfb, Hfa.
    unfold st1, opened. cbn [fs set_fs]. now rewrite lookup_insert_eq. }
  assert (Hp : params sd = p) by (rewrite Hkp; reflexivity).
  assert (Hg : rng sd = g) by (rewrite Hkg; reflexivity).
  exists out, result, fl, rws.
  cbn [params rng fs set_fs]. rewrite Hp, Hg.
  split; [reflexivity|]. split; [eauto|]. split; [exact Hf|].
  split; [now rewrite lookup_alter_eq, Hfs|].
  assert (Hlen : length rws = length fl)
    by (rewrite <- (Forall2_length _ _ _ Hall); apply length_seq).
  assert (Hpw : params sw = p) by reflexivity.
  rewrite Hpw in Hall.
  split; [exact Hlen|].
  split; [|split; [reflexivity|]].
  - intros i row Hi.
    destruct (Forall2_lookup_r _ _ _ _ _ Hall Hi) as (x & Hx & Hrow).
    apply lookup_seq in Hx as [-> _]. cbn [Nat.add] in Hrow.
    destruct (data_row_inv _ _ _ _ Hrow)
      as (fl' & fq & pm & pv & sm & sv & npm & npv & nsm & nsv & Hf'
          & Hfq & H1 & H2 & H3 & H4 & H5 & H6 & H7 & H8 & Hr).
    rewrite Hf in Hf'. injection Hf' as <-.
    exists fq, pm, pv, sm, sv, npm, npv, nsm, nsv.
    split; [exact Hfq|].
    repeat (split; [apply stat_inv; eassumption|]).
    exact Hr.
  - intros Hs Hfl. unfold CsvText.file_text. cbn [rows foldr].
    change (String.append header_row ?x) with (header_row +:+ x).
    rewrite count_char_app, count_newline_rows, Hlen; [reflexivity|].
    apply Forall_lookup_2. intros i row Hi.
    destruct (Forall2_lookup_r _ _ _ _ _ Hall Hi) as (x & _ & Hrow).
    exact (data_row_one_line _ _ _ _ Hs Hfl Hrow).
Qed.

(** ** File names *)

Lemma body_outputFilename (out : string) (st : St) :
  _check_filename (dom (fs st)) (saveName s c) saveDir = Some out →
  v_outputFilename (body s c st).2 = Some out
  ∧ (io_fault env (io_open out) (fs st) = None →
     is_Some (fs (body s c st).2 !! out)).
Proof.
  intros Hres.
  destruct (io_fault env (io_open out) (fs st)) as [e|] eqn:Hopen.
  { split; [|discriminate]. unfold condition_body.
    cbn [fs add_event set_saveName]. rewrite Hres. unfold file_open.
    cbn [fs set_outputFilename set_saveName add_event].
    now rewrite Hopen. }
  rewrite (body_opened out) by assumption.
  set (R := λ a b : St,
         v_outputFilename b = v_outputFilename a
         ∧ (is_Some (fs a !! out) → is_Some (fs b !! out))).
  assert (Hrefl : ∀ a, R a a) by (intros a; split; auto).
  assert (Htrans : ∀ a b d, R a b → R b d → R a d).
  { intros a b d [H1 H2] [H3 H4]. split; [congruence|auto]. }
  assert (Hfs : ∀ g path a, R a (set_fs (alter g path (fs a)) a)).
  { intros g path a. split; [reflexivity|]. cbn [fs set_fs].
    intros Ha. now apply lookup_alter_is_Some. }
  assert (Hstart : v_outputFilename (opened s c out st) = Some out
                   ∧ is_Some (fs (opened s c out st) !! out)).
  { split; [reflexivity|]. unfold opened. cbn [fs set_fs].
    rewrite lookup_insert_eq. eauto. }
  pose proof (preserves_try_block R Hrefl Htrans Hfs) as Htry.
  specialize (Htry (λ _ _, Hrefl _) (λ _ _, Hrefl _) (λ _ _, Hrefl _)
                (λ _ _, Hrefl _) (λ _ _, Hrefl _) (λ _ _, Hrefl _)
                (λ _ _ _, Hrefl _) (λ _ _, Hrefl _)
                s c out (opened s c out st)).
  destruct (try_block env dataDir minTrials s c out (opened s c out st))
    as [[u|e] st2]; cbn [snd] in *.
  - destruct Htry as [H1 H2], Hstart as [H3 H4]. split; [congruence|auto].
  - rewrite finish_snd.
    pose proof (preserves_handlers R Hrefl Htrans (λ _ _, Hrefl _)
                  s c e st2) as [H5 H6].
    destruct Htry as [H1 H2], Hstart as [H3 H4].
    split; [congruence|auto].
Qed.

(** ** The trace only grows *)

Lemma grows_refl (a : St) : DriverNotions.grows a a.
Proof. exists []. now rewrite app_nil_r. Qed.

Lemma grows_trans (a b d : St) :
  DriverNotions.grows a b → DriverNotions.grows b d →
  DriverNotions.grows a d.
Proof.
  intros [t1 H1] [t2 H2]. exists (t1 ++ t2).
  rewrite H2, H1. now rewrite app_assoc.
Qed.

Lemma grows_same (a b : St) : trace b = trace a → DriverNotions.grows a b.
Proof. intros H. exists []. now rewrite app_nil_r. Qed.

Lemma grows_event (e : event F Trial) (a : St) :
  DriverNotions.grows a (add_event e a).
Proof. exists [e]. reflexivity. Qed.

Ltac grows_side :=
  intros;
  first [ apply grows_event
        | now apply grows_same
        | eapply grows_trans; eassumption ].

Lemma use_mat_grows (l : polarity) (acc : list (list Trial))
    (w : MatFile Trial) :
  preserves DriverNotions.grows (use_mat env minTrials l acc w).
Proof. apply preserves_use_mat; grows_side. Qed.

Lemma load_grows (l : polarity) (acc : list (list Trial)) :
  preserves DriverNotions.grows (load s c l acc).
Proof. apply preserves_load_polarity; grows_side. Qed.

Lemma after_loads_grows (out : string) (cd : list (list Trial)) :
  preserves DriverNotions.grows
    (bind (bootstrap_bootfunc env cd) (write_results env s c out)).
Proof.
  apply preserves_bind; [grows_side|..].
  - apply preserves_bootfunc; grows_side.
  - intros r. apply preserves_write_results; grows_side.
Qed.

Lemma bind_snd_grows {A B} (m : M A) (k : A → M B) (st : St) :
  (∀ a, preserves DriverNotions.grows (k a)) →
  DriverNotions.grows (m st).2 (bind m k st).2.
Proof.
  intros Hk. unfold bind. destruct (m st) as [[a|e] st1]; cbn [snd].
  - apply Hk.
  - apply grows_refl.
Qed.

Lemma outcome_grows (r : Res unit * St) :
  DriverNotions.grows r.2
    (match r with
     | (Ok _, st2) => (Processed, st2)
     | (Raise e, st2) => finish (handlers s c e st2)
     end).2.
Proof.
  destruct r as [[u|e] st2]; cbn [snd]; [apply grows_refl|].
  rewrite finish_snd. apply preserves_handlers; grows_side.
Qed.

(** Each pass of the polarity loop calls [io.loadmat] on its file
    first. *)
Lemma load_reads (l : polarity) (acc : list (list Trial)) (st : St) :
  ∃ tail, trace (load s c l acc st).2
          = trace st ++ EvLoad (path_of l) :: tail.
Proof.
  rewrite load_polarity_unfold.
  destruct (loadmat env (path_of l)) as [w|e].
  - destruct (use_mat_grows l acc w
                (add_event (EvLoad (path_of l)) (set_l l st)))
      as [tail Ht].
    exists tail. rewrite Ht. cbn [trace add_event set_l].
    now rewrite <- app_assoc.
  - exists []. reflexivity.
Qed.

Lemma body_reads_positive (out : string) (st : St) :
  _check_filename (dom (fs st)) (saveName s c) saveDir = Some out →
  io_fault env (io_open out) (fs st) = None →
  ∃ tail, trace (body s c st).2
          = trace st ++ EvPrint (MsgCondition c)
              :: EvLoad (path_of pol_positive) :: tail.
Proof.
  intros Hres Hopen. rewrite (body_opened out) by assumption.
  destruct (load_reads pol_positive [] (opened s c out st)) as [t1 H1].
  assert (H2 : DriverNotions.grows
                 (load s c pol_positive [] (opened s c out st)).2
                 (try_block env dataDir minTrials s c out
                    (opened s c out st)).2).
  { unfold try_block. apply bind_snd_grows. intros cd.
    apply preserves_bind; [grows_side|apply load_grows|].
    intros cd'. apply after_loads_grows. }
  destruct H2 as [t2 H2].
  destruct (outcome_grows
              (try_block env dataDir minTrials s c out (opened s c out st)))
    as [t3 H3].
  exists (t1 ++ t2 ++ t3). rewrite H3, H2, H1.
  unfold opened. cbn [trace add_event set_saveName set_outputFilename
                        set_fs].
  rewrite <- !app_assoc. reflexivity.
Qed.

Lemma body_reads_negative (out : string) (acc : list (list Trial))
    (st st2 : St) :
  _check_filename (dom (fs st)) (saveName s c) saveDir = Some out →
  io_fault env (io_open out) (fs st) = None →
  load s c pol_positive [] (opened s c out st) = (Ok acc, st2) →
  ∃ tail, trace (body s c st).2
          = trace st2 ++ EvLoad (path_of pol_negative) :: tail.
Proof.
  intros Hres Hopen Hl. rewrite (body_opened out) by assumption.
  assert (Htry : try_block env dataDir minTrials s c out
                   (opened s c out st)
                 = bind (load s c pol_negative acc)
                     (λ cd', bind (bootstrap_bootfunc env cd')
                               (write_results env s c out)) st2).
  { unfold try_block. unfold bind at 1. now rewrite Hl. }
  destruct (load_reads pol_negative acc st2) as [t1 H1].
  destruct (bind_snd_grows (load s c pol_negative acc)
              (λ cd', bind (bootstrap_bootfunc env cd')
                        (write_results env s c out)) st2) as [t2 H2].
  { intros cd'. apply after_loads_grows. }
  destruct (outcome_grows
              (try_block env dataDir minTrials s c out (opened s c out st)))
    as [t3 H3].
  exists (t1 ++ t2 ++ t3). rewrite H3, Htry, H2, H1.
  rewrite <- !app_assoc. reflexivity.
Qed.

(** A file that lacks one of the two keys ends the run. *)
Lemma body_missing_data (out : string) (l : polarity)
    (acc : list (list Trial)) (sr : option Z) (st st2 : St) :
  _check_filename (dom (fs st)) (saveName s c) saveDir = Some out →
  io_fault env (io_open out) (fs st) = None →
  reaches env dataDir minTrials s c l (opened s c out st) st2 acc →
  loadmat env (path_of l) = Ok (mkMatFile None sr) →
  (body s c st).1 = Crashed (KeyError "data").
Proof.
  intros Hres Hopen Hreach Hload.
  rewrite (body_opened out) by assumption.
  rewrite (try_block_raise_in_load out l acc (KeyError "data") _ st2
             (add_event (EvLoad (path_of l)) (set_l l st2)) Hreach).
  - reflexivity.
  - rewrite load_polarity_unfold, Hload. reflexivity.
Qed.

Lemma body_missing_sampleRate (out : string) (l : polarity)
    (acc : list (list Trial)) (m : list Trial) (st st2 : St) :
  _check_filename (dom (fs st)) (saveName s c) saveDir = Some out →
  io_fault env (io_open out) (fs st) = None →
  reaches env dataDir minTrials s c l (opened s c out st) st2 acc →
  loadmat env (path_of l) = Ok (mkMatFile (Some m) None) →
  (body s c st).1 = Crashed (KeyError "sampleRate").
Proof.
  intros Hres Hopen Hreach Hload.
  rewrite (body_opened out) by assumption.
  rewrite (try_block_raise_in_load out l acc (KeyError "sampleRate") _ st2
             (loaded dataDir s c l m st2) Hreach).
  - reflexivity.
  - rewrite load_polarity_unfold, Hload. reflexivity.
Qed.

(** ** Where the files are *)

Abbreviation slashed d :=
  (if String.eqb d%string "" || endswith "/" d%string then d%string
   else d%string +:+ "/").

Lemma path_of_relative (l : polarity) :
  startswith "/" s = false →
  path_of l = slashed dataDir +:+ loadName s c l.
Proof.
  intros Hs. apply join_relative.
  destruct l; unfold loadName; apply startswith_app;
    solve [exact Hs|reflexivity].
Qed.

Lemma candidate_saveName (k : nat) :
  startswith "/" s = false →
  ResolverNames.candidate (join saveDir (saveName s c)) k
  = slashed saveDir +:+ s +:+ "_condition_" +:+ str_nat c
      +:+ ResolverNames.piled "" k +:+ ".csv".
Proof.
  intros Hs. rewrite join_relative
    by (unfold saveName; apply startswith_app; solve [exact Hs|reflexivity]).
  unfold saveName. set (d := slashed saveDir).
  replace (d +:+ s +:+ "_condition_" +:+ str_nat c +:+ ".csv")
    with ((d +:+ s +:+ "_condition") +:+ "_" +:+ str_nat c +:+ ".csv")
    by (rewrite !app_assoc_str; reflexivity).
  rewrite candidate_suffixed. rewrite !app_assoc_str. reflexivity.
Qed.


(** ** What the body does to the file system *)

Import DriverNotions.

(** Everything the [try] block and the handlers do leaves alone what
    a relation on the file system allows to change at
    [outputFilename] only. *)
Section PreservesAt.
Variables (out : string) (R : St → St → Prop).
Hypothesis R_trans : ∀ a b d, R a b → R b d → R a d.
Hypothesis R_same : ∀ a b, fs b = fs a → R a b.
Hypothesis R_at : ∀ g st, R st (set_fs (alter g out (fs st)) st).

Lemma preserves_at_file_write (d : string) :
  preserves R (file_write env out d).
Proof.
  intros st. unfold file_write.
  destruct (io_fault env _ _); simpl; [now apply R_same|apply R_at].
Qed.

Lemma preserves_at_file_close : preserves R (file_close env out).
Proof.
  intros st. unfold file_close.
  destruct (io_fault env _ _); simpl; apply R_at.
Qed.

Lemma preserves_at_write_rows
    (result : gmap string (gmap string (list F))) (bins : list nat) :
  preserves R (write_rows env s c out result bins).
Proof.
  induction bins as [|i bins IH]; simpl.
  - intros st. now apply R_same.
  - apply (preserves_bind R R_trans).
    { intros st. now apply R_same. }
    intros p. apply (preserves_bind R R_trans).
    { intros st. now apply R_same. }
    intros row. apply (preserves_bind R R_trans);
      [apply preserves_at_file_write|intros _; exact IH].
Qed.

Lemma preserves_at_write_results
    (result : gmap string (gmap string (list F))) :
  preserves R (write_results env s c out result).
Proof.
  unfold write_results.
  apply (preserves_bind R R_trans).
  { intros st. now apply R_same. }
  intros _. apply (preserves_bind R R_trans);
    [apply preserves_at_file_write|intros _].
  apply (preserves_bind R R_trans).
  { intros st. now apply R_same. }
  intros p. apply (preserves_bind R R_trans).
  { intros st. now apply R_same. }
  intros fl. apply (preserves_bind R R_trans);
    [apply preserves_at_write_rows|intros _].
  apply preserves_at_file_close.
Qed.

Lemma preserves_at_try_block :
  preserves R (try_block env dataDir minTrials s c out).
Proof.
  assert (Hrefl : ∀ st, R st st) by (intros st; now apply R_same).
  unfold try_block.
  apply (preserves_bind R R_trans).
  { apply preserves_load_polarity; try assumption;
      intros; now apply R_same. }
  intros cd. apply (preserves_bind R R_trans).
  { apply preserves_load_polarity; try assumption;
      intros; now apply R_same. }
  intros cd'. apply (preserves_bind R R_trans).
  { apply preserves_bootfunc; try assumption;
      intros; now apply R_same. }
  intros r. apply preserves_at_write_results.
Qed.

Lemma preserves_at_handlers (e : exn) : preserves R (handlers s c e).
Proof.
  apply preserves_handlers; try assumption; intros; now apply R_same.
Qed.

(** From the opening of the file to the end of the body. *)
Lemma preserves_at_body (st : St) :
  _check_filename (dom (fs st)) (saveName s c) saveDir = Some out →
  io_fault env (io_open out) (fs st) = None →
  R (opened s c out st) (body s c st).2.
Proof.
  intros Hres Hopen. rewrite (body_opened out) by assumption.
  pose proof (preserves_at_try_block (opened s c out st)) as Htry.
  destruct (try_block env dataDir minTrials s c out (opened s c out st))
    as [[u|e] st2]; cbn [snd] in *; [exact Htry|].
  rewrite finish_snd. eapply R_trans; [exact Htry|].
  apply preserves_at_handlers.
Qed.
End PreservesAt.

Lemma body_fs_when_not_opened (out : string) (e : exn) (st : St) :
  _check_filename (dom (fs st)) (saveName s c) saveDir = Some out →
  io_fault env (io_open out) (fs st) = Some e →
  fs (body s c st).2 = fs st.
Proof.
  intros Hres Hopen. unfold condition_body.
  cbn [fs add_event set_saveName]. rewrite Hres. unfold file_open.
  cbn [fs set_outputFilename set_saveName add_event].
  now rewrite Hopen.
Qed.

(** One pass through the body leaves every file that was there as it
    was. *)
Lemma body_keeps_existing (st : St) : fs st ⊆ fs (body s c st).2.
Proof.
  apply map_subseteq_spec. intros p o Hp.
  destruct (check_filename_total (dom (fs st)) (saveName s c) saveDir)
    as (out & Hres & Hfree).
  destruct (io_fault env (io_open out) (fs st)) as [e|] eqn:Hopen.
  { now rewrite (body_fs_when_not_opened out e). }
  assert (Hne : out ≠ p).
  { intros ->. apply Hfree. apply elem_of_dom. eauto. }
  rewrite (preserves_at_body out (λ a b, fs b !! p = fs a !! p)
             (λ a b d H1 H2, eq_trans H2 H1)
             (λ a b H, f_equal (λ m, m !! p) H)
             (λ g a, lookup_alter_ne g (fs a) out p Hne) st Hres Hopen).
  unfold opened. cbn [fs set_fs]. now rewrite lookup_insert_ne.
Qed.

(** A pass that ends in the [try] block's end or in a handler's
    [continue] has made exactly one new file. *)
Lemma body_adds_one_file (st : St) :
  (body s c st).1 = Processed ∨ (body s c st).1 = Skipped →
  size (fs (body s c st).2) = S (size (fs st)).
Proof.
  intros Ho.
  destruct (check_filename_total (dom (fs st)) (saveName s c) saveDir)
    as (out & Hres & Hfree).
  destruct (io_fault env (io_open out) (fs st)) as [e|] eqn:Hopen.
  { rewrite (body_open_fault out e st Hres Hopen) in Ho.
    destruct Ho; discriminate. }
  pose proof (preserves_at_body out (λ a b, dom (fs b) = dom (fs a))
                (λ a b d H1 H2, eq_trans H2 H1)
                (λ a b H, f_equal dom H)
                (λ g a, dom_alter_L g (fs a) out) st Hres Hopen) as Hd.
  rewrite <- size_dom, Hd, size_dom. unfold opened. cbn [fs set_fs].
  apply map_size_insert_None. now apply not_elem_of_dom.
Qed.

(** ** The output file on the skip paths *)

Lemma bind_raise_inv {A B} (m : M A) (k : A → M B) (e : exn)
    (st st2 : St) :
  bind m k st = (Raise e, st2) →
  m st = (Raise e, st2)
  ∨ ∃ a st1, m st = (Ok a, st1) ∧ k a st1 = (Raise e, st2).
Proof.
  unfold bind. destruct (m st) as [[a|e'] st1]; intros H.
  - right. eauto.
  - left. injection H as -> ->. reflexivity.
Qed.

Section Unclosed.
Variable out : string.

Abbreviation keeps := (stays_unclosed out).

Lemma keeps_trans (a b d : St) : keeps a b → keeps b d → keeps a d.
Proof. unfold stays_unclosed. auto. Qed.

Lemma keeps_same (a b : St) : fs b = fs a → keeps a b.
Proof. unfold stays_unclosed, unclosed. now intros ->. Qed.

Lemma keeps_file_write (d : string) : preserves keeps (file_write env out d).
Proof.
  intros st. unfold file_write.
  destruct (io_fault env _ _); cbn [snd]; [now apply keeps_same|].
  intros (o & Ho & Hc). unfold unclosed. cbn [fs set_fs].
  rewrite lookup_alter_eq, Ho. eexists. split; [reflexivity|exact Hc].
Qed.

Lemma keeps_write_rows (result : gmap string (gmap string (list F)))
    (bins : list nat) :
  preserves keeps (write_rows env s c out result bins).
Proof.
  induction bins as [|i bins IH]; cbn [write_rows].
  - intros st. now apply keeps_same.
  - apply (preserves_bind keeps keeps_trans).
    { intros st. now apply keeps_same. }
    intros p. apply (preserves_bind keeps keeps_trans).
    { intros st. now apply keeps_same. }
    intros row. apply (preserves_bind keeps keeps_trans);
      [apply keeps_file_write|intros _; exact IH].
Qed.

(** What [outputFile.close()] leaves when it is the statement that
    raised [e]. *)
Abbreviation close_raised e st2 :=
  (∃ files o, io_fault env (io_close out) files = Some e
              ∧ fs st2 !! out = Some o ∧ closed o = true).

(** [close] is the last thing the [try] block does: when the block
    is left by an exception, either the file has not been closed or
    the exception is the one [close] raised. *)
Lemma write_results_raise_unclosed
    (result : gmap string (gmap string (list F))) (e : exn)
    (st st2 : St) :
  write_results env s c out result st = (Raise e, st2) →
  unclosed out st → unclosed out st2 ∨ close_raised e st2.
Proof.
  unfold write_results. intros H Hu.
  apply bind_raise_inv in H as [H|(u1 & s1 & H1 & H)]; [discriminate|].
  injection H1 as _ <-.
  apply bind_raise_inv in H as [H|(u2 & s2 & H2 & H)].
  { left. revert Hu.
    pose proof (keeps_file_write header_row (set_result result st)) as Hk.
    rewrite H in Hk. eapply keeps_trans; [|exact Hk].
    now apply keeps_same. }
  assert (Hk2 : keeps st s2).
  { pose proof (keeps_file_write header_row (set_result result st)) as Hk.
    rewrite H2 in Hk. eapply keeps_trans; [|exact Hk].
    now apply keeps_same. }
  apply bind_raise_inv in H as [H|(p & s3 & H3 & H)]; [discriminate|].
  injection H3 as _ <-.
  apply bind_raise_inv in H as [H|(fl & s4 & H4 & H)].
  { unfold lift in H. injection H as _ <-. left. exact (Hk2 Hu). }
  unfold lift in H4. injection H4 as _ <-.
  apply bind_raise_inv in H as [H|(u5 & s5 & H5 & H)].
  { left. revert Hu.
    pose proof (keeps_write_rows result (seq 0 (length fl)) s2) as Hk.
    rewrite H in Hk. eapply keeps_trans; [exact Hk2|exact Hk]. }
  assert (Hk5 : keeps st s5).
  { pose proof (keeps_write_rows result (seq 0 (length fl)) s2) as Hk.
    rewrite H5 in Hk. eapply keeps_trans; [exact Hk2|exact Hk]. }
  unfold file_close in H. cbv zeta in H.
  destruct (io_fault env (io_close out) (fs s5)) as [e0|] eqn:Hf;
    [|discriminate].
  injection H as -> <-. right.
  destruct (Hk5 Hu) as (o & Ho & _).
  exists (fs s5), (mkOFile (rows o) true).
  split; [exact Hf|]. cbn [fs set_fs].
  rewrite lookup_alter_eq, Ho. split; reflexivity.
Qed.

Lemma try_block_raise_unclosed (e : exn) (st st2 : St) :
  try_block env dataDir minTrials s c out st = (Raise e, st2) →
  unclosed out st → unclosed out st2 ∨ close_raised e st2.
Proof.
  assert (Hload : ∀ l acc a, keeps a (load s c l acc a).2).
  { intros l acc a. apply keeps_same. apply load_polarity_keeps_fs. }
  unfold try_block. intros H Hu.
  apply bind_raise_inv in H as [H|(cd1 & s1 & H1 & H)].
  { left. pose proof (Hload pol_positive [] st) as Hk.
    rewrite H in Hk. exact (Hk Hu). }
  assert (Hk1 : keeps st s1).
  { pose proof (Hload pol_positive [] st) as Hk. now rewrite H1 in Hk. }
  apply bind_raise_inv in H as [H|(cd2 & s2 & H2 & H)].
  { left. pose proof (Hload pol_negative cd1 s1) as Hk. rewrite H in Hk.
    exact (Hk (Hk1 Hu)). }
  assert (Hk2 : keeps st s2).
  { pose proof (Hload pol_negative cd1 s1) as Hk. rewrite H2 in Hk.
    eapply keeps_trans; [exact Hk1|exact Hk]. }
  assert (Hboot : keeps s2 (bootstrap_bootfunc env cd2 s2).2).
  { apply keeps_same. unfold bootstrap_bootfunc.
    now destruct (bootfunc env _ _ _) as [[r p] g]. }
  apply bind_raise_inv in H as [H|(r & s3 & H3 & H)].
  { left. rewrite H in Hboot. exact (Hboot (Hk2 Hu)). }
  rewrite H3 in Hboot.
  apply (write_results_raise_unclosed r e s3 st2 H).
  exact (Hboot (Hk2 Hu)).
Qed.

Lemma skipped_leaves_unclosed (st st' : St) :
  _check_filename (dom (fs st)) (saveName s c) saveDir = Some out →
  body s c st = (Skipped, st') →
  unclosed out st'
  ∨ ∃ e, (e = IOError ∨ e = AssertionError) ∧ close_raised e st'.
Proof.
  intros Hres Hb.
  destruct (io_fault env (io_open out) (fs st)) as [e|] eqn:Hopen.
  { pose proof (body_open_fault out e st Hres Hopen) as Hc.
    rewrite Hb in Hc. discriminate. }
  rewrite (body_opened out) in Hb by assumption.
  destruct (try_block env dataDir minTrials s c out (opened s c out st))
    as [[u|e] st2] eqn:Htry; [discriminate|].
  pose proof (preserves_handlers (λ a b : St, fs b = fs a)
                (λ _, eq_refl) (λ a b d H1 H2, eq_trans H2 H1)
                (λ _ _, eq_refl) s c e st2) as Hh.
  rewrite <- (finish_snd (handlers s c e st2)), Hb in Hh.
  cbn [snd] in Hh.
  assert (He : e = IOError ∨ e = AssertionError).
  { destruct e; first [now left|now right|discriminate]. }
  destruct (try_block_raise_unclosed e _ _ Htry) as [Hk|Hk].
  - unfold unclosed, opened. cbn [fs set_fs].
    rewrite lookup_insert_eq. eauto.
  - left. unfold unclosed in *. now rewrite Hh.
  - right. exists e. split; [exact He|]. now rewrite Hh.
Qed.
End Unclosed.


(** ** How often the estimator is called *)

Lemma load_polarity_appends (l : polarity) (acc cd : list (list Trial))
    (st st' : St) :
  load s c l acc st = (Ok cd, st') → ∃ sub, cd = acc ++ [sub].
Proof.
  rewrite load_polarity_unfold.
  destruct (loadmat env (path_of l)) as [w|e]; [|discriminate].
  unfold use_mat, bind, lift, modify, gets, print, ret.
  destruct (data w) as [m|]; [|discriminate]. cbn [getitem].
  destruct (sampleRate w) as [sr|]; [|discriminate]. cbn [getitem].
  destruct (minTrials <? Z.of_nat (length m))%Z; [|discriminate].
  cbn [py_assert ret].
  destruct (sr =? _)%Z; [|discriminate]. cbn [py_assert ret].
  unfold random_permutation. destruct (permutation env _ _) as [perm g].
  unfold take_trials. destruct (mapM _ _) as [sub|]; [|discriminate].
  cbn. intros [= <- _]. eauto.
Qed.

Lemma load_polarity_no_call (l : polarity) (acc : list (list Trial))
    (st : St) :
  estimator_calls (trace (load s c l acc st).2)
  = estimator_calls (trace st).
Proof.
  apply (preserves_load_polarity
           (λ a b : St,
                estimator_calls (trace b) = estimator_calls (trace a)));
    intros; try reflexivity.
  - etransitivity; eassumption.
  - apply estimator_calls_print.
  - apply estimator_calls_load.
Qed.

Lemma handlers_no_call (e : exn) (a : St) :
  estimator_calls (trace (finish (handlers s c e a)).2)
  = estimator_calls (trace a).
Proof.
  rewrite finish_snd.
  apply (preserves_handlers
           (λ a b : St,
              estimator_calls (trace b) = estimator_calls (trace a)));
    intros; try reflexivity.
  - etransitivity; eassumption.
  - apply estimator_calls_print.
Qed.

Lemma handlers_keep_fs (e : exn) (a : St) :
  fs (finish (handlers s c e a)).2 = fs a.
Proof.
  rewrite finish_snd.
  apply (preserves_handlers (λ a b : St, fs b = fs a)); intros;
    try reflexivity.
  etransitivity; eassumption.
Qed.

(** Once the output file is open, either an input file stops the
    pass, and then neither the estimator nor the output file is
    touched, or the estimator is called on two matrices, once. *)
Lemma body_call_cases (out : string) (st : St) :
  _check_filename (dom (fs st)) (saveName s c) saveDir = Some out →
  io_fault env (io_open out) (fs st) = None →
  (estimator_calls (trace (body s c st).2) = estimator_calls (trace st)
   ∧ fs (body s c st).2 = fs (opened s c out st))
  ∨ ∃ sub1 sub2 p,
      estimator_calls (trace (body s c st).2)
      = estimator_calls (trace st) ++ [([sub1; sub2], p)].
Proof.
  intros Hres Hopen.
  assert (Hstart : estimator_calls (trace (opened s c out st))
                   = estimator_calls (trace st))
    by apply (estimator_calls_print (MsgCondition c) st).
  pose proof (load_polarity_no_call pol_positive [] (opened s c out st))
    as Hc1.
  pose proof (load_polarity_keeps_fs pol_positive [] (opened s c out st))
    as Hf1.
  destruct (load s c pol_positive [] (opened s c out st))
    as [[cd1|e] sa] eqn:H1; cbn [snd] in Hc1, Hf1.
  2: { left. rewrite (body_opened out) by assumption.
       unfold try_block, bind. rewrite H1.
       rewrite handlers_no_call, handlers_keep_fs. split; congruence. }
  pose proof (load_polarity_no_call pol_negative cd1 sa) as Hc2.
  pose proof (load_polarity_keeps_fs pol_negative cd1 sa) as Hf2.
  destruct (load s c pol_negative cd1 sa) as [[cd2|e] sb] eqn:H2;
    cbn [snd] in Hc2, Hf2.
  2: { left. rewrite (body_opened out) by assumption.
       unfold try_block, bind. rewrite H1. cbv beta iota. rewrite H2.
       rewrite handlers_no_call, handlers_keep_fs. split; congruence. }
  destruct (load_polarity_appends _ _ _ _ _ H1) as [sub1 ->].
  destruct (load_polarity_appends _ _ _ _ _ H2) as [sub2 ->].
  right. exists sub1, sub2, (params sb).
  rewrite (body_after_loads out _ _ _ _ _ H1 H2 Hres Hopen).
  destruct (bootfunc env _ _ _) as [[r p] g].
  rewrite no_call_after_boot.
  cbn [trace add_event set_rng set_params]. unfold estimator_calls at 1.
  rewrite omap_app. cbn [omap app]. fold (estimator_calls (trace sb)).
  now rewrite Hc2, Hc1, Hstart.
Qed.

(** X7: in every pass through the body, however it ends, [bootfunc] is
    called once at most, and when it is called it is given a list of
    exactly two matrices. *)
Theorem estimator_called_at_most_once (st : St) :
  ∃ calls,
    estimator_calls (trace (body s c st).2)
    = estimator_calls (trace st) ++ calls
    ∧ (calls = [] ∨ ∃ sub1 sub2 p, calls = [([sub1; sub2], p)]).
Proof.
  destruct (check_filename_total (dom (fs st)) (saveName s c) saveDir)
    as (out & Hres & _).
  destruct (io_fault env (io_open out) (fs st)) as [e|] eqn:Hopen.
  { exists []. split; [|now left]. rewrite app_nil_r.
    unfold condition_body. cbn [fs add_event set_saveName].
    rewrite Hres. unfold file_open.
    cbn [fs set_outputFilename set_saveName add_event]. rewrite Hopen.
    cbn [snd trace]. apply (estimator_calls_print (MsgCondition c) st). }
  destruct (body_call_cases out st Hres Hopen)
    as [[Hnone _]|(sub1 & sub2 & p & Hone)].
  - exists []. split; [now rewrite app_nil_r|now left].
  - exists [([sub1; sub2], p)]. split; [exact Hone|right; eauto].
Qed.

(** X8: nothing is written to the output file before the estimator has
    been called: a pass in which it is not called leaves the file it
    opened empty, and open. *)
Theorem no_row_without_estimator_call (out : string) (st : St) :
  _check_filename (dom (fs st)) (saveName s c) saveDir = Some out →
  io_fault env (io_open out) (fs st) = None →
  estimator_calls (trace (body s c st).2) = estimator_calls (trace st) →
  fs (body s c st).2 !! out = Some (mkOFile [] false).
Proof.
  intros Hres Hopen Hcalls.
  destruct (body_call_cases out st Hres Hopen)
    as [[_ Hfs]|(sub1 & sub2 & p & Hone)].
  - rewrite Hfs. unfold opened. cbn [fs set_fs]. apply lookup_insert_eq.
  - rewrite Hcalls in Hone. apply (f_equal length) in Hone.
    rewrite length_app in Hone. cbn in Hone. lia.
Qed.

(** ** The frequency axis is read after the header is written *)

(** X9: when the estimator returns but [params] holds no ['f'], the
    script ends with [KeyError: 'f'], and by then the header row is
    in the output file, which is left open. *)
Theorem missing_frequency_axis_after_header (out : string)
    (cd1 cd2 : list (list Trial))
    (result : gmap string (gmap string (list F))) (p : Params F)
    (g : RNG) (st sa sb : St) :
  _check_filename (dom (fs st)) (saveName s c) saveDir = Some out →
  io_fault env (io_open out) (fs st) = None →
  load s c pol_positive [] (opened s c out st) = (Ok cd1, sa) →
  load s c pol_negative cd1 sa = (Ok cd2, sb) →
  bootfunc env cd2 (params sb) (rng sb) = (Ok result, p, g) →
  f p = None →
  io_fault env (io_write out header_row)
    (<[out := mkOFile [] false]> (fs st)) = None →
  (body s c st).1 = Crashed (KeyError "f")
  ∧ fs (body s c st).2 !! out = Some (mkOFile [header_row] false)
  ∧ ∀ cs, (for_conditions env dataDir saveDir minTrials s (c :: cs) st).1
          = Uncaught (KeyError "f").
Proof.
  intros Hres Hopen H1 H2 Hboot Hf Hwrite.
  assert (Hfs : fs sb = <[out := mkOFile [] false]> (fs st)).
  { pose proof (load_polarity_keeps_fs pol_positive []
                  (opened s c out st)) as Ha.
    pose proof (load_polarity_keeps_fs pol_negative cd1 sa) as Hb.
    rewrite H1 in Ha. rewrite H2 in Hb. cbn [snd] in Ha, Hb.
    now rewrite Hb, Ha. }
  assert (Hbody : body s c st
            = (Crashed (KeyError "f"),
               set_fs (alter (λ o, mkOFile (rows o ++ [header_row])
                                     (closed o)) out (fs sb))
                 (set_result result
                    (set_rng g (set_params p
                       (add_event (EvBoot cd2 (params sb)) sb)))))).
  { rewrite (body_after_loads out _ _ _ _ _ H1 H2 Hres Hopen), Hboot.
    unfold write_results, bind, modify, gets, lift, file_write.
    cbn [fs set_rng set_params set_result add_event].
    rewrite Hfs, Hwrite.
    cbn [params set_fs set_rng set_params set_result add_event].
    rewrite Hf. reflexivity. }
  split; [now rewrite Hbody|]. split.
  - rewrite Hbody. cbn [snd fs set_fs]. rewrite lookup_alter_eq, Hfs.
    now rewrite lookup_insert_eq.
  - intros cs. cbn [for_conditions]. now rewrite Hbody.
Qed.

(** ** A negative [minTrials] *)

(** X10: with [minTrials] below zero no trial count fails the assertion,
    and the slice [permutedTrials[0:minTrials]] keeps all but the last
    [-minTrials] indices of the permutation (none when there are not
    that many). *)
Theorem negative_min_trials_drops_last (l : polarity)
    (acc : list (list Trial)) (m : list Trial) (sr : Z)
    (perm : list nat) (g : RNG) (st : St) :
  (minTrials < 0)%Z →
  loadmat env (path_of l) = Ok (mkMatFile (Some m) (Some sr)) →
  sr = Fs (params st) →
  permutation env (length m) (rng st) = (perm, g) →
  Permutation perm (seq 0 (length m)) →
  ∃ sub,
    load s c l acc st
    = (Ok (acc ++ [sub]),
       add_event
         (EvPrint (MsgUsing l
                     (take (length m - Z.to_nat (- minTrials)) perm)))
         (set_rng g (loaded dataDir s c l m st)))
    ∧ length sub = length m - Z.to_nat (- minTrials).
Proof.
  intros Hneg Hload Hsr Hp Hperm.
  assert (Hlen : length perm = length m).
  { rewrite (Permutation_length Hperm). apply length_seq. }
  assert (Hslice : slice_to minTrials perm
                   = take (length m - Z.to_nat (- minTrials)) perm).
  { unfold slice_to. destruct (Z.ltb_spec minTrials 0) as [_|?]; [|lia].
    f_equal. rewrite Hlen. lia. }
  assert (Hrange : Forall (λ j, j < length m) perm).
  { rewrite Hperm. apply Forall_forall. intros j Hj.
    apply elem_of_seq in Hj. lia. }
  destruct (mapM (λ j, m !! j) (slice_to minTrials perm)) as [sub|]
    eqn:Hsub.
  2: { exfalso. apply eq_None_not_Some in Hsub. apply Hsub.
       apply mapM_is_Some.
       rewrite Hslice. apply Forall_take.
       eapply Forall_impl; [exact Hrange|].
       intros j Hj. now apply lookup_lt_is_Some. }
  exists sub. split.
  - rewrite <- Hslice.
    apply (load_polarity_ok l acc m sr perm g sub st); try assumption.
    lia.
  - rewrite <- (length_mapM _ _ _ Hsub), Hslice, length_take. lia.
Qed.

(** ** What an [IOError] after the loading is reported as *)

Lemma load_polarity_binds_l (l : polarity) (acc : list (list Trial))
    (st : St) :
  v_l (load s c l acc st).2 = Some l.
Proof.
  rewrite load_polarity_unfold.
  destruct (loadmat env (path_of l)) as [w|e]; [|reflexivity].
  rewrite (preserves_use_mat (λ a b : St, v_l b = v_l a)); intros;
    try reflexivity.
  etransitivity; eassumption.
Qed.

(** X11: [except IOError] prints [loadName[l]] with whatever [l] is by
    then: an [IOError] raised after both files are loaded, by the
    estimator or by a write to the output file, is reported as the
    negative-polarity file that cannot be found. *)
Theorem late_ioerror_blames_negative_file (out : string)
    (cd1 cd2 : list (list Trial)) (st sa sb st2 : St) :
  _check_filename (dom (fs st)) (saveName s c) saveDir = Some out →
  io_fault env (io_open out) (fs st) = None →
  load s c pol_positive [] (opened s c out st) = (Ok cd1, sa) →
  load s c pol_negative cd1 sa = (Ok cd2, sb) →
  try_block env dataDir minTrials s c out (opened s c out st)
  = (Raise IOError, st2) →
  body s c st
  = (Skipped,
     add_event (EvPrint (MsgCannotFind (loadName s c pol_negative) c))
       st2)
  ∧ render env (MsgCannotFind (loadName s c pol_negative) c)
    = NL +:+ "Cannot find file: " +:+ s +:+ "_S_" +:+ str_nat (c + 6)
         +:+ ".mat, skipping,condition " +:+ str_nat c +:+ " " +:+ NL.
Proof.
  intros Hres Hopen H1 H2 Htry. split.
  - rewrite (body_opened out), Htry by assumption. cbv beta iota.
    rewrite (handlers_ioerror pol_negative); [reflexivity|].
    pose proof (load_polarity_binds_l pol_negative cd1 sa) as Hl.
    rewrite H2 in Hl. cbn [snd] in Hl. rewrite <- Hl.
    unfold try_block, bind in Htry. rewrite H1, H2 in Htry.
    pose proof (preserves_bootfunc (λ a b : St, v_l b = v_l a)
                  (λ a b d Hab Hbd, eq_trans Hbd Hab)
                  (λ _ _, eq_refl) (λ _ _ _, eq_refl) (λ _ _, eq_refl)
                  cd2 sb) as Hb.
    destruct (bootstrap_bootfunc env cd2 sb) as [[r|e] sc];
      cbn [snd] in Hb.
    + pose proof (preserves_write_results (λ a b : St, v_l b = v_l a)
                    (λ _, eq_refl) (λ a b d Hab Hbd, eq_trans Hbd Hab)
                    (λ _ _ _, eq_refl) (λ _ _, eq_refl)
                    s c out r sc) as Hw.
      rewrite Htry in Hw. cbn [snd] in Hw. congruence.
    + injection Htry as _ <-. exact Hb.
  - unfold render, loadName. now rewrite !app_assoc_str.
Qed.

End Body.

Lemma saveName_inj (s : string) (c1 c2 : nat) :
  saveName s c1 = saveName s c2 → c1 = c2.
Proof.
  unfold saveName. intros H.
  apply String.app_inj in H. apply (String.app_inj "_condition_") in H.
  apply app_inv_tail_str in H. now apply str_nat_inj.
Qed.


(** ** The whole run *)

Lemma for_conditions_keeps_existing (s : string) (cs : list nat) (st : St) :
  fs st ⊆ fs (for_conditions env dataDir saveDir minTrials s cs st).2.
Proof.
  revert st. induction cs as [|c cs IH]; intros st; [reflexivity|].
  cbn [for_conditions]. pose proof (body_keeps_existing s c st) as Hb.
  destruct (body s c st) as [[| |e|] st']; cbn [snd] in *;
    try exact Hb; (transitivity (fs st'); [exact Hb|apply IH]).
Qed.

(** X4: the script never changes, truncates or removes a file that exists
    when it starts: however the run over the subjects ends, every path
    of the file system it started in still holds what it held. *)
Theorem main_keeps_existing_files (subjectList : list string) (st : St) :
  fs st ⊆ fs (main env dataDir saveDir minTrials subjectList st).2.
Proof.
  revert st. induction subjectList as [|s rest IH]; intros st;
    [reflexivity|].
  cbn [main].
  pose proof (for_conditions_keeps_existing s conditions st) as Hc.
  destruct (for_conditions env dataDir saveDir minTrials s conditions st)
    as [[|e|] st']; cbn [snd] in *; try exact Hc.
  transitivity (fs st'); [exact Hc|apply IH].
Qed.

Lemma for_conditions_file_count (s : string) (cs : list nat) (st : St) :
  (for_conditions env dataDir saveDir minTrials s cs st).1 = Finished →
  size (fs (for_conditions env dataDir saveDir minTrials s cs st).2)
  = size (fs st) + length cs.
Proof.
  revert st. induction cs as [|c cs IH]; intros st.
  - intros _. cbn. lia.
  - cbn [for_conditions length].
    pose proof (body_adds_one_file s c st) as Hb.
    destruct (body s c st) as [[| |e|] st']; cbn [fst snd] in *;
      try discriminate; intros Hf; rewrite (IH st' Hf), Hb; auto; lia.
Qed.

(** X5: a run that gets through all subjects has made three new files for
    each of them: every condition leaves its output file, the skipped
    ones too. *)
Theorem finished_run_file_count (subjectList : list string) (st : St) :
  (main env dataDir saveDir minTrials subjectList st).1 = Finished →
  size (fs (main env dataDir saveDir minTrials subjectList st).2)
  = size (fs st) + 3 * length subjectList.
Proof.
  revert st. induction subjectList as [|s rest IH]; intros st.
  - intros _. cbn. lia.
  - cbn [main length].
    pose proof (for_conditions_file_count s conditions st) as Hc.
    destruct (for_conditions env dataDir saveDir minTrials s conditions st)
      as [[|e|] st']; cbn [fst snd] in *; try discriminate.
    intros Hf. rewrite (IH st' Hf), (Hc eq_refl). cbn [conditions length].
    lia.
Qed.

End DriverFacts.

(** * The driver on the recording session *)

Section Session.
Import PyStr PosixPath Resolver Driver Scenario.

Abbreviation run_condition fault minTrials c :=
  (condition_body (world fault) "data" "out" minTrials "s" c
     (start minTrials)).

Lemma exactly_min_trials_is_skipped_witness :
  run_condition no_fault 2 2
  = (Skipped,
     add_event (EvPrint (MsgOnlyTrials 2 "s_S_2.mat" 2))
       (loaded "data" "s" 2 pol_positive [20; 21]
          (opened "s" 2 "out/s_condition_2.csv" (start 2)))).
Proof.
  refine (proj1 (proj2 (proj2
    (exactly_min_trials_is_skipped (world no_fault) "data" "out" 2 "s" 2
       "out/s_condition_2.csv" pol_positive [] [20; 21] 5000 []
       (start 2) (opened "s" 2 "out/s_condition_2.csv" (start 2))
       _ _ _ _ _)))).
  - vm_compute. reflexivity.
  - reflexivity.
  - split; reflexivity.
  - vm_compute. reflexivity.
  - reflexivity.
Defined.

Lemma sample_rate_mismatch_is_skipped_witness :
  (run_condition no_fault 2 3).1 = Skipped
  ∧ fs (run_condition no_fault 2 3).2 !! "out/s_condition_3.csv"
    = Some (mkOFile [] false).
Proof.
  assert (Hres : _check_filename (dom (fs (start 2))) (saveName "s" 3) "out"
                 = Some "out/s_condition_3.csv") by (vm_compute; reflexivity).
  assert (Hreach : reaches (world no_fault) "data" 2 "s" 3 pol_negative
                     (opened "s" 3 "out/s_condition_3.csv" (start 2))
                     (before_negative 2 3 "out/s_condition_3.csv" (start 2)).2
                     [[32; 31]]) by (vm_compute; reflexivity).
  assert (Hload : loadmat (world no_fault)
                    (join "data" (loadName "s" 3 pol_negative))
                  = Ok (mkMatFile (Some [90; 91; 92; 93; 94; 95])
                          (Some 4096%Z))) by (vm_compute; reflexivity).
  destruct (sample_rate_mismatch_is_skipped (world no_fault) "data" "out" 2
              "s" 3 "out/s_condition_3.csv" pol_negative [[32; 31]]
              [90; 91; 92; 93; 94; 95] 4096 [] (start 2)
              (before_negative 2 3 "out/s_condition_3.csv" (start 2)).2
              Hres eq_refl Hreach Hload)
    as (st' & Hb & _ & Hfile & _).
  - vm_compute. discriminate.
  - rewrite Hb. split; [reflexivity|exact Hfile].
Defined.

Lemma sample_rate_mismatch_reported_as_trial_count_witness :
  last (trace (run_condition no_fault 2 3).2)
  = Some (EvPrint (MsgOnlyTrials 6 "s_S_9.mat" 3)).
Proof.
  assert (Hres : _check_filename (dom (fs (start 2))) (saveName "s" 3) "out"
                 = Some "out/s_condition_3.csv") by (vm_compute; reflexivity).
  assert (Hreach : reaches (world no_fault) "data" 2 "s" 3 pol_negative
                     (opened "s" 3 "out/s_condition_3.csv" (start 2))
                     (before_negative 2 3 "out/s_condition_3.csv" (start 2)).2
                     [[32; 31]]) by (vm_compute; reflexivity).
  assert (Hload : loadmat (world no_fault)
                    (join "data" (loadName "s" 3 pol_negative))
                  = Ok (mkMatFile (Some [90; 91; 92; 93; 94; 95])
                          (Some 4096%Z))) by (vm_compute; reflexivity).
  destruct (sample_rate_mismatch_reported_as_trial_count (world no_fault)
              "data" "out" 2 "s" 3 "out/s_condition_3.csv" pol_negative
              [[32; 31]] [90; 91; 92; 93; 94; 95] 4096 (start 2)
              (before_negative 2 3 "out/s_condition_3.csv" (start 2)).2
              Hres eq_refl Hreach Hload)
    as (st' & Hb & Htrace & _).
  - vm_compute. reflexivity.
  - vm_compute. discriminate.
  - rewrite Hb. cbn [snd]. rewrite Htrace. vm_compute. reflexivity.
Defined.



Lemma subsample_and_single_estimator_call_witness :
  ∃ sub1 sub2,
    estimator_calls (trace (run_condition no_fault 2 1).2)
    = [([sub1; sub2], script_params 2)].
Proof.
  assert (Hres : _check_filename (dom (fs (start 2))) (saveName "s" 1) "out"
                 = Some "out/s_condition_1.csv") by (vm_compute; reflexivity).
  assert (Hperm : ∀ n g, Permutation (permutation (world no_fault) n g).1
                           (seq 0 n)).
  { intros n g. cbn. symmetry. apply Permutation_rev. }
  assert (Hl1 : loadmat (world no_fault)
                  (join "data" (loadName "s" 1 pol_positive))
                = Ok (mkMatFile (Some [10; 11; 12; 13; 14]) (Some 5000%Z)))
    by (vm_compute; reflexivity).
  assert (Hl2 : loadmat (world no_fault)
                  (join "data" (loadName "s" 1 pol_negative))
                = Ok (mkMatFile (Some [70; 71; 72; 73]) (Some 5000%Z)))
    by (vm_compute; reflexivity).
  destruct (subsample_and_single_estimator_call (world no_fault) "data"
              "out" 2 "s" 1 "out/s_condition_1.csv" [10; 11; 12; 13; 14]
              [70; 71; 72; 73] 5000 5000 (start 2) Hres eq_refl Hperm
              Hl1 Hl2)
    as (use1 & use2 & sub1 & sub2 & _ & _ & _ & _ & Hcalls).
  - lia.
  - cbn. lia.
  - cbn. lia.
  - reflexivity.
  - reflexivity.
  - exists sub1, sub2. exact Hcalls.
Defined.

(** C5, where the claim fails: in condition 3 both matrices hold more
    than [minTrials = 2] trials, yet the estimator is never called,
    because the negative file was recorded at another rate; and with
    [minTrials = -1] both matrices of condition 1 hold more than
    [minTrials] trials, and the slices keep all but the last index of
    each permutation, four indices for one polarity and three for the
    other. *)
Lemma subsample_claim_needs_rate_and_sign :
  ((2 < Z.of_nat (length [30; 31; 32]))%Z
   ∧ (2 < Z.of_nat (length [90; 91; 92; 93; 94; 95]))%Z
   ∧ data <$> recordings !! "data/s_S_3.mat" = Some (Some [30; 31; 32])
   ∧ data <$> recordings !! "data/s_S_9.mat"
     = Some (Some [90; 91; 92; 93; 94; 95])
   ∧ estimator_calls (trace (run_condition no_fault 2 3).2) = [])
  ∧ ((-1 < Z.of_nat (length [10; 11; 12; 13; 14]))%Z
     ∧ (-1 < Z.of_nat (length [70; 71; 72; 73]))%Z
     ∧ trace (run_condition no_fault (-1) 1).2
       = [EvPrint (MsgCondition 1); EvLoad "data/s_S_1.mat";
          EvPrint (MsgUsing pol_positive [4; 3; 2; 1]);
          EvLoad "data/s_S_7.mat";
          EvPrint (MsgUsing pol_negative [3; 2; 1]);
          EvBoot [[14; 13; 12; 11]; [73; 72; 71]] (script_params (-1))]).
Proof. repeat split; vm_compute; reflexivity. Qed.

Lemma processed_condition_writes_csv_witness :
  ∃ dataRows,
    fs (run_condition no_fault 2 1).2 !! "out/s_condition_1.csv"
    = Some (mkOFile (header_row :: dataRows) true)
    ∧ length dataRows = 2
    ∧ CsvText.count_char "010"
        (CsvText.file_text (mkOFile (header_row :: dataRows) true))
      = 3.
Proof.
  assert (Hb : run_condition no_fault 2 1
               = (Processed, (run_condition no_fault 2 1).2))
    by (vm_compute; reflexivity).
  destruct (processed_condition_writes_csv (world no_fault) "data" "out" 2
              "s" 1 (start 2) _ Hb)
    as (out & result & fl & dataRows & Hres & _ & Hf & Hfile & Hlen & _ & _
        & Hlines).
  vm_compute in Hres. injection Hres as <-.
  vm_compute in Hf. injection Hf as <-.
  exists dataRows. split; [exact Hfile|]. split; [exact Hlen|].
  apply Hlines; [reflexivity|]. intros x. apply count_newline_str_Z.
Defined.

(** The file of condition 1, as it is written. *)
Example processed_condition_file_text :
  CsvText.file_text
    <$> fs (run_condition no_fault 2 1).2 !! "out/s_condition_1.csv"
  = Some ("Subject Name,Condition,Number of Draws,Trials per Draw,Frequency,PLV**2: bootstrapped mean,PLV**2: bootstrapped variance,Spectrum: bootstrapped mean,Spectrum: bootstrapped variance,Noise floor PLV**2: bootstrapped mean,Noise floor PLV**2: bootstrapped variance,Noise floor Spectrum: bootstrapped mean,Noise floor Spectrum: bootstrapped variance"
          +:+ String "010" "s,1,100,2,70,1,3,1,3,1,3,1,3"
          +:+ String "010" "s,1,100,2,75,2,4,2,4,2,4,2,4"
          +:+ String "010" "").
Proof. vm_compute. reflexivity. Qed.



Lemma skip_message_and_filename_agree_witness :
  skip_condition (last (trace (run_condition no_fault 2 2).2)) = Some 2
  ∧ v_saveName (run_condition no_fault 2 2).2 = Some "s_condition_2.csv".
Proof.
  assert (Hb : run_condition no_fault 2 2
               = (Skipped, (run_condition no_fault 2 2).2))
    by (vm_compute; reflexivity).
  exact (skip_message_and_filename_agree (world no_fault) "data" "out" 2
           "s" 2 (start 2) _ Hb).
Defined.

End Session.

(** C8, where the claim fails: no run of the loop body prints a skip
    message for one condition while the output file is named after
    another. *)
Lemma no_condition_mismatch :
  ¬ ∃ (RNG F Trial : Type) (env : Driver.Env RNG F Trial)
      (dataDir saveDir : string) (minTrials : Z) (s : string) (c : nat)
      (st st' : Driver.State RNG F Trial) (c_msg c_file : nat),
      Driver.condition_body env dataDir saveDir minTrials s c st
      = (Driver.Skipped, st')
      ∧ Driver.skip_condition (last (Driver.trace st')) = Some c_msg
      ∧ Driver.v_saveName st' = Some (Driver.saveName s c_file)
      ∧ c_msg ≠ c_file.
Proof.
  intros (RNG & F & Trial & env & dataDir & saveDir & minTrials & s & c & st
          & st' & c_msg & c_file & Hb & Hmsg & Hname & Hne).
  apply Hne.
  pose proof (body_saveName env dataDir saveDir minTrials s c st) as Hs.
  rewrite Hb in Hs. cbn [snd] in Hs. rewrite Hs in Hname.
  injection Hname as Hname. apply saveName_inj in Hname. subst c_file.
  destruct (skipped_message env dataDir saveDir minTrials s c st st' Hb)
    as [file [H|[n H]]]; rewrite H in Hmsg; now injection Hmsg.
Qed.

(** * More on the resolver *)

Section ResolverMore.
Import PyStr PosixPath Resolver ResolverNames.

Lemma while_exists_run (fs : gset string) (p0 : string) (k : nat) :
  (∀ j, j < k → candidate p0 j ∈ fs) → candidate p0 k ∉ fs →
  ∀ d j, j + d = k →
    while_exists (S d) fs j (candidate p0 j) = Some (candidate p0 k).
Proof.
  intros Hin Hfree d. induction d as [|d IH]; intros j Hj.
  - replace j with k by lia. cbn [while_exists].
    now rewrite bool_decide_eq_false_2.
  - cbn [while_exists]. rewrite bool_decide_eq_true_2 by (apply Hin; lia).
    rewrite candidate_step. rewrite Nat.add_1_r. apply IH. lia.
Qed.

(** X2: the first free name in the sequence [x.csv], [x_1.csv],
    [x_1_2.csv], [x_1_2_3.csv], ... is what the resolver returns: each
    collision appends its counter to the name that collided. *)
Theorem check_filename_piles_suffixes (fs : gset string)
    (inSaveName inSaveDir : string) (k : nat) :
  (∀ j, j < k → candidate (join inSaveDir inSaveName) j ∈ fs) →
  candidate (join inSaveDir inSaveName) k ∉ fs →
  _check_filename fs inSaveName inSaveDir
  = Some (candidate (join inSaveDir inSaveName) k).
Proof.
  intros Hin Hfree.
  assert (Hrun : while_exists (S k) fs 0 (join inSaveDir inSaveName)
                 = Some (candidate (join inSaveDir inSaveName) k))
    by exact (while_exists_run fs _ k Hin Hfree k 0 eq_refl).
  destruct (check_filename_total fs inSaveName inSaveDir) as (r & Hr & _).
  rewrite Hr. unfold _check_filename in Hr.
  destruct (Nat.le_gt_cases (S k) (size fs + 2)) as [Hle|Hgt].
  - apply (while_exists_mono _ _ _ _ _ _ Hrun) in Hle. congruence.
  - assert (Hle : size fs + 2 ≤ S k) by lia.
    apply (while_exists_mono _ _ _ _ _ _ Hr) in Hle. congruence.
Qed.

Lemma check_filename_piles_suffixes_witness :
  _check_filename {["out/x.csv"; "out/x_1.csv"; "out/x_1_2.csv"]}
    "x.csv" "out"
  = Some "out/x_1_2_3.csv".
Proof.
  apply (check_filename_piles_suffixes
           {["out/x.csv"; "out/x_1.csv"; "out/x_1_2.csv"]} "x.csv" "out" 3).
  - intros j Hj.
    destruct j as [|[|[|j]]]; [vm_compute; reflexivity..|lia].
  - vm_compute. intros H. discriminate H.
Defined.

(** X1: the resolver always returns, the path it returns does not exist,
    and it is the requested path exactly when that one does not
    exist. *)
Theorem check_filename_returns_unused (fs : gset string)
    (inSaveName inSaveDir : string) :
  ∃ r, _check_filename fs inSaveName inSaveDir = Some r
       ∧ (r ∉ fs)
       ∧ (r = join inSaveDir inSaveName ↔ join inSaveDir inSaveName ∉ fs).
Proof.
  destruct (decide (join inSaveDir inSaveName ∈ fs)) as [Hin|Hfree].
  - destruct (check_filename_total fs inSaveName inSaveDir)
      as (r & Hr & Hr').
    exists r. split; [exact Hr|]. split; [exact Hr'|].
    split; [intros ->; exact Hr'|contradiction].
  - exists (join inSaveDir inSaveName).
    split; [now apply check_filename_free|]. split; [exact Hfree|].
    split; [intros _; exact Hfree|reflexivity].
Qed.

(** *** The directory stays *)

Lemma rfind_str_take (c : ascii) (p : string) (n : nat) :
  (rfind c p < Z.of_nat n)%Z → rfind c (str_take n p) = rfind c p.
Proof.
  revert n. induction p as [|a t IH]; intros n Hn.
  - now destruct n.
  - destruct n as [|n].
    + pose proof (rfind_bounds c (String a t)). cbn [str_take].
      change (rfind c "") with (-1)%Z. lia.
    + cbn [str_take rfind] in *. revert Hn.
      destruct (Z.leb_spec 0 (rfind c t)) as [Hge|Hlt]; intros Hn.
      * rewrite IH by lia.
        destruct (Z.leb_spec 0 (rfind c t)); [reflexivity|lia].
      * rewrite IH by lia.
        destruct (Z.leb_spec 0 (rfind c t)); [lia|reflexivity].
Qed.

Lemma str_take_take (m n : nat) (p : string) :
  m ≤ n → str_take m (str_take n p) = str_take m p.
Proof.
  revert n p. induction m as [|m IH]; intros n p Hle.
  - now destruct (str_take n p).
  - destruct n as [|n]; [lia|]. destruct p as [|a t]; [reflexivity|].
    cbn [str_take]. rewrite IH by lia. reflexivity.
Qed.

Lemma str_take_app_le (m : nat) (s t : string) :
  m ≤ String.length s → str_take m (s +:+ t) = str_take m s.
Proof.
  revert s. induction m as [|m IH]; intros s Hle.
  - now destruct s, t.
  - destruct s as [|a s]; [simpl in Hle; lia|].
    rewrite app_cons. cbn [str_take]. rewrite IH; [reflexivity|].
    simpl in Hle. lia.
Qed.

Lemma dir_prefix_root (p : string) :
  dir_prefix (splitext p).1 = dir_prefix p.
Proof.
  unfold splitext.
  destruct (Z.ltb_spec (rfind "/" p) (rfind "." p)) as [Hlt|Hge];
    [|reflexivity].
  destruct (negb _); [|reflexivity]. cbn [andb fst].
  pose proof (rfind_bounds "/" p) as Hb.
  unfold dir_prefix.
  rewrite rfind_str_take by (rewrite Z2Nat.id by lia; lia).
  apply str_take_take. lia.
Qed.

Lemma dir_prefix_suffix (root : string) (k : nat) :
  dir_prefix (root +:+ "_" +:+ str_nat k +:+ ".csv") = dir_prefix root.
Proof.
  assert (Hsep : rfind "/" (root +:+ "_" +:+ str_nat k +:+ ".csv")
                 = rfind "/" root).
  { rewrite rfind_app.
    assert (rfind "/" ("_" +:+ str_nat k +:+ ".csv") = (-1)%Z) as ->.
    { rewrite rfind_app. rewrite rfind_app.
      change (rfind "/" ".csv") with (-1)%Z. cbn [Z.leb Z.compare].
      rewrite rfind_str_nat by auto. reflexivity. }
    reflexivity. }
  unfold dir_prefix. rewrite Hsep. apply str_take_app_le.
  pose proof (rfind_bounds "/" root). lia.
Qed.

Lemma while_exists_dir (fuel : nat) (fs : gset string) (counter : nat)
    (p r : string) :
  while_exists fuel fs counter p = Some r → dir_prefix r = dir_prefix p.
Proof.
  revert counter p. induction fuel as [|fuel IH]; intros counter p Hr;
    [discriminate|].
  simpl in Hr. case_bool_decide.
  - apply IH in Hr. rewrite Hr, dir_prefix_suffix. apply dir_prefix_root.
  - now injection Hr as <-.
Qed.

(** X3: whatever exists, the name the resolver returns lies in the
    directory of the requested name: everything up to the last slash of
    [os.path.join(inSaveDir, inSaveName)] is kept. *)
Theorem check_filename_keeps_directory (fs : gset string)
    (inSaveName inSaveDir : string) :
  ∃ r, _check_filename fs inSaveName inSaveDir = Some r
       ∧ dir_prefix r = dir_prefix (join inSaveDir inSaveName)
       ∧ rfind "/" r = rfind "/" (join inSaveDir inSaveName).
Proof.
  destruct (check_filename_total fs inSaveName inSaveDir) as (r & Hr & _).
  exists r. split; [exact Hr|].
  assert (Hd : dir_prefix r = dir_prefix (join inSaveDir inSaveName))
    by (apply (while_exists_dir _ _ _ _ _ Hr)).
  split; [exact Hd|].
  apply (f_equal String.length) in Hd. unfold dir_prefix in Hd.
  assert (Hlen : ∀ q, String.length (str_take (Z.to_nat (rfind "/" q + 1)) q)
                      = Z.to_nat (rfind "/" q + 1)).
  { intros q. pose proof (rfind_bounds "/" q) as Hb.
    assert (Hq : Z.to_nat (rfind "/" q + 1) ≤ String.length q) by lia.
    revert Hq. generalize (Z.to_nat (rfind "/" q + 1)). clear.
    induction q as [|a q IH]; intros n Hn.
    - destruct n; [reflexivity|simpl in Hn; lia].
    - destruct n as [|n]; [reflexivity|]. cbn [str_take String.length].
      rewrite IH; [reflexivity|simpl in Hn; lia]. }
  rewrite !Hlen in Hd.
  pose proof (rfind_bounds "/" r). 
  pose proof (rfind_bounds "/" (join inSaveDir inSaveName)). lia.
Qed.

End ResolverMore.

(** * The further facts on the recording session *)

Section SessionMore.
Import PyStr PosixPath Resolver Driver Scenario ScenarioNoAxis.

Lemma finished_run_file_count_witness :
  size (fs (main (world no_fault) "data" "out" 2 ["s"] (start 2)).2) = 3.
Proof.
  assert (Hf : (main (world no_fault) "data" "out" 2 ["s"] (start 2)).1
               = Finished) by (vm_compute; reflexivity).
  rewrite (finished_run_file_count (world no_fault) "data" "out" 2 ["s"]
             (start 2) Hf).
  reflexivity.
Defined.


(** When it is [outputFile.close()] that raises [IOError], the
    condition is skipped with its file complete and closed, and the
    message names the negative-polarity input. *)
Example close_fault_skips_with_file_closed :
  let r := condition_body (world close_fails) "data" "out" 2 "s" 1
             (start 2) in
  r.1 = Skipped
  ∧ last (trace r.2) = Some (EvPrint (MsgCannotFind "s_S_7.mat" 1))
  ∧ ∃ o, fs r.2 !! "out/s_condition_1.csv" = Some o
         ∧ closed o = true ∧ length (rows o) = 3.
Proof.
  vm_compute. split; [reflexivity|]. split; [reflexivity|].
  eexists. split; [reflexivity|]. split; reflexivity.
Qed.

Lemma no_row_without_estimator_call_witness :
  fs (condition_body (world no_fault) "data" "out" 2 "s" 3 (start 2)).2
    !! "out/s_condition_3.csv"
  = Some (mkOFile [] false).
Proof.
  apply (no_row_without_estimator_call (world no_fault) "data" "out" 2
           "s" 3 "out/s_condition_3.csv" (start 2)).
  - vm_compute. reflexivity.
  - reflexivity.
  - vm_compute. reflexivity.
Defined.

Lemma missing_frequency_axis_after_header_witness :
  (condition_body world_without_axis "data" "out" 2 "s" 1 (start 2)).1
  = Crashed (KeyError "f")
  ∧ fs (condition_body world_without_axis "data" "out" 2 "s" 1 (start 2)).2
      !! "out/s_condition_1.csv"
    = Some (mkOFile [header_row] false).
Proof.
  pose (st1 := opened "s" 1 "out/s_condition_1.csv" (start 2)).
  pose (sa := (load_polarity world_without_axis "data" 2 "s" 1
                 pol_positive [] st1).2).
  pose (sb := (load_polarity world_without_axis "data" 2 "s" 1
                 pol_negative [[14; 13]] sa).2).
  destruct (missing_frequency_axis_after_header world_without_axis "data"
              "out" 2 "s" 1 "out/s_condition_1.csv" [[14; 13]]
              [[14; 13]; [73; 72]] some_result (script_params 2) 2
              (start 2) sa sb) as (Ho & Hfile & _).
  - vm_compute. reflexivity.
  - reflexivity.
  - vm_compute. reflexivity.
  - vm_compute. reflexivity.
  - vm_compute. reflexivity.
  - reflexivity.
  - reflexivity.
  - split; [exact Ho|exact Hfile].
Defined.

Lemma negative_min_trials_drops_last_witness :
  ∃ sub,
    (load_polarity (world no_fault) "data" (-1) "s" 1 pol_positive []
       (start (-1))).1
    = Ok [sub]
    ∧ length sub = 4.
Proof.
  destruct (negative_min_trials_drops_last (world no_fault) "data" (-1)
              "s" 1 pol_positive [] [10; 11; 12; 13; 14] 5000
              [4; 3; 2; 1; 0] 1 (start (-1))) as (sub & Hload & Hlen).
  - lia.
  - vm_compute. reflexivity.
  - reflexivity.
  - reflexivity.
  - exact (Permutation_sym (Permutation_rev [0; 1; 2; 3; 4])).
  - exists sub. rewrite Hload. split; [reflexivity|exact Hlen].
Defined.

Lemma late_ioerror_blames_negative_file_witness :
  last (trace (condition_body (world disk_full) "data" "out" 2 "s" 1
                 (start 2)).2)
  = Some (EvPrint (MsgCannotFind "s_S_7.mat" 1)).
Proof.
  pose (st1 := opened "s" 1 "out/s_condition_1.csv" (start 2)).
  pose (sa := (load_polarity (world disk_full) "data" 2 "s" 1
                 pol_positive [] st1).2).
  pose (sb := (load_polarity (world disk_full) "data" 2 "s" 1
                 pol_negative [[14; 13]] sa).2).
  pose (st2 := (try_block (world disk_full) "data" 2 "s" 1
                  "out/s_condition_1.csv" st1).2).
  destruct (late_ioerror_blames_negative_file (world disk_full) "data"
              "out" 2 "s" 1 "out/s_condition_1.csv" [[14; 13]]
              [[14; 13]; [73; 72]] (start 2) sa sb st2) as [Hb _].
  - vm_compute. reflexivity.
  - reflexivity.
  - vm_compute. reflexivity.
  - vm_compute. reflexivity.
  - vm_compute. reflexivity.
  - rewrite Hb. cbn [snd trace add_event]. apply last_snoc.
Defined.

End SessionMore.
